(** * ENS DAO proposal monitor: the GitHub publisher ([src/github.ts])

    A shallow embedding of the [GitHub] class: number assignment
    ([assignNumber]), rendering ([formatFile]) and the
    branch / file / pull-request sequence ([addProposal]), together with
    the parts of the JavaScript runtime the class relies on (UTF-16
    strings, [Date], [String.prototype.replace], [encodeURIComponent],
    [unescape], [btoa]). *)

From Stdlib Require Import ZArith NArith List Ascii String Lia Bool.
From stdpp Require Import base tactics option list numbers countable gmap pretty.

Local Open Scope Z_scope.

(** ** JavaScript strings

    A JavaScript string is a finite sequence of UTF-16 code units.  Code
    units are modelled as [N]; [is_jsstring] states that every unit fits
    in 16 bits.  String literals of the source are ASCII and are written
    with [lit]. *)

Abbreviation JSString := (list N).

Definition lit (s : string) : JSString :=
  List.map N_of_ascii (list_ascii_of_string s).

Definition is_code_unit (c : N) : bool := (c <? 65536)%N.
Definition is_jsstring (s : JSString) : bool := forallb is_code_unit s.

(** [`${n}`] for an integer-valued Number or a BigInt: decimal digits with
    a leading minus sign for negative values.  (A Number switches to
    exponent notation from 1e21 on; years and directory sizes stay far
    below that.) *)
Definition toString (n : Z) : JSString := lit (pretty n).

(** [String.prototype.startsWith(searchString)] from position 0: the code
    units of [searchString] are compared with the leading units of [s]. *)
Fixpoint startsWith (s searchString : JSString) {struct searchString}
  : bool :=
  match searchString with
  | [] => true
  | c :: search' =>
      match s with
      | [] => false
      | d :: s' => if (d =? c)%N then startsWith s' search' else false
      end
  end.

(** ** Exceptions and results *)

Inductive Exn : Type :=
| RequestError (status : Z) (message : JSString)  (* @octokit/request-error *)
| GenericError (message : JSString)               (* new Error(message) *)
| URIError (message : JSString)                   (* encodeURIComponent *)
| InvalidCharacterError                           (* btoa *)
| ForeignError (message : JSString).              (* anything else a collaborator throws *)

(** [error instanceof RequestError] *)
Definition instanceof_RequestError (e : Exn) : bool :=
  match e with RequestError _ _ => true | _ => false end.

Definition error_message (e : Exn) : JSString :=
  match e with
  | RequestError _ m | GenericError m | URIError m | ForeignError m => m
  | InvalidCharacterError => lit "Invalid character"
  end.

Inductive Result (A : Type) : Type :=
| Ok (a : A)
| Throw (e : Exn).
Arguments Ok {A} a.
Arguments Throw {A} e.

(** [Result] is the error monad of synchronous code. *)
Global Instance Result_ret : MRet Result := λ A a, Ok a.
Global Instance Result_bind : MBind Result := λ A B f r,
  match r with
  | Ok a => f a
  | Throw e => Throw e
  end.

(** ** [String.prototype.replace] with a string pattern *)

(** StringIndexOf: the least index at which [searchValue] occurs in [s],
    counted from [k] for the current suffix. *)
Fixpoint StringIndexOf (s searchValue : JSString) (k : nat) : option nat :=
  if startsWith s searchValue then Some k
  else match s with
       | [] => None
       | _ :: s' => StringIndexOf s' searchValue (S k)
       end.

Definition DOLLAR : N := 36.

(** GetSubstitution with no captures and no named captures: [$$] is a
    dollar sign, [$&] the match, [$`] the text before it and [$'] the
    text after it; every other code unit (also [$1], [$<]: there is no
    capture to refer to) is copied. *)
Fixpoint GetSubstitution (matched preceding following template : JSString)
  : JSString :=
  match template with
  | [] => []
  | c :: rest =>
      if (c =? DOLLAR)%N then
        match rest with
        | [] => [c]
        | d :: rest' =>
            if (d =? 36)%N then
              DOLLAR :: GetSubstitution matched preceding following rest'
            else if (d =? 96)%N then
              preceding ++ GetSubstitution matched preceding following rest'
            else if (d =? 38)%N then
              matched ++ GetSubstitution matched preceding following rest'
            else if (d =? 39)%N then
              following ++ GetSubstitution matched preceding following rest'
            else c :: GetSubstitution matched preceding following rest
        end
      else c :: GetSubstitution matched preceding following rest
  end.

(** [string.replace(searchString, replaceValue)]: only the first
    occurrence is replaced; without an occurrence the string is returned
    as it is. *)
Definition replace (string searchString replaceValue : JSString) : JSString :=
  match StringIndexOf string searchString 0 with
  | None => string
  | Some position =>
      let preceding := take position string in
      let following := drop (position + length searchString) string in
      preceding
        ++ GetSubstitution searchString preceding following replaceValue
        ++ following
  end.

(** ** [encodeURIComponent], [unescape] and [btoa] *)

Definition in_range (lo hi c : N) : bool := ((lo <=? c) && (c <=? hi))%N.

Definition is_alnum (c : N) : bool :=
  in_range 48 57 c || in_range 65 90 c || in_range 97 122 c.

(** uriUnreserved: alphanumerics and the marks [-_.!~*'()]. *)
Definition is_uriUnreserved (c : N) : bool :=
  is_alnum c || existsb (N.eqb c) (lit "-_.!~*'()").

Definition is_leading_surrogate (c : N) : bool := in_range 55296 56319 c.
Definition is_trailing_surrogate (c : N) : bool := in_range 56320 57343 c.

(** UTF16SurrogatePairToCodePoint *)
Definition UTF16SurrogatePairToCodePoint (lead trail : N) : N :=
  ((lead - 55296) * 1024 + (trail - 56320) + 65536)%N.

(** The UTF-8 octets of a code point. *)
Definition UTF8_octets (cp : N) : list N :=
  (if cp <? 128 then [cp]
   else if cp <? 2048 then [192 + cp / 64; 128 + cp mod 64]
   else if cp <? 65536 then
     [224 + cp / 4096; 128 + (cp / 64) mod 64; 128 + cp mod 64]
   else
     [240 + cp / 262144; 128 + (cp / 4096) mod 64;
      128 + (cp / 64) mod 64; 128 + cp mod 64])%N.

Definition PERCENT : N := 37.

Definition hexDigit (n : N) : N := (if n <? 10 then 48 + n else 55 + n)%N.

(** ["%XX"] with upper-case hexadecimal digits. *)
Definition percentEncode (octet : N) : JSString :=
  [PERCENT; hexDigit (octet / 16); hexDigit (octet mod 16)]%N.

Definition malformed : Exn := URIError (lit "URI malformed").

(** Encode(string, uriUnreserved): unreserved units are copied, every
    other code point is percent-encoded octet by octet; an unpaired
    surrogate throws a URIError. *)
Fixpoint encodeURIComponent (s : JSString) : Result JSString :=
  match s with
  | [] => Ok []
  | C :: rest =>
      if is_uriUnreserved C then
        r ← encodeURIComponent rest; Ok (C :: r)
      else if is_leading_surrogate C then
        match rest with
        | D :: rest' =>
            if is_trailing_surrogate D then
              r ← encodeURIComponent rest';
              Ok (concat (percentEncode <$>
                    UTF8_octets (UTF16SurrogatePairToCodePoint C D)) ++ r)
            else Throw malformed
        | [] => Throw malformed
        end
      else if is_trailing_surrogate C then Throw malformed
      else
        r ← encodeURIComponent rest;
        Ok (concat (percentEncode <$> UTF8_octets C) ++ r)
  end.

Definition hexValue (c : N) : option N :=
  (if in_range 48 57 c then Some (c - 48)
   else if in_range 65 70 c then Some (c - 55)
   else if in_range 97 102 c then Some (c - 87)
   else None)%N.

(** The value of a non-empty run of hexadecimal digits. *)
Fixpoint parseHex (acc : N) (digits : JSString) : option N :=
  match digits with
  | [] => Some acc
  | d :: digits' => v ← hexValue d; parseHex (16 * acc + v)%N digits'
  end.

(** One iteration of the loop of [unescape] at code unit [c] followed by
    [rest]: the unit appended to the result and the input left over.
    ["%uXXXX"] is tried when six units are available and the second is
    [u], ["%XX"] otherwise. *)
Definition unescape_step (c : N) (rest : JSString) : N * JSString :=
  if (c =? PERCENT)%N then
    let hexDigits :=
      if (6 <=? S (length rest))%nat && (List.hd 0%N rest =? 117)%N
      then Some (take 4 (drop 1 rest), 5%nat)
      else if (3 <=? S (length rest))%nat then Some (take 2 rest, 2%nat)
      else None in
    match hexDigits with
    | Some (d :: digits, optionalAdvance) =>
        match parseHex 0 (d :: digits) with
        | Some n => (n, drop optionalAdvance rest)
        | None => (c, rest)
        end
    | _ => (c, rest)
    end
  else (c, rest).

Fixpoint unescape_loop (fuel : nat) (s : JSString) : JSString :=
  match fuel, s with
  | S fuel', c :: rest =>
      let '(C, rest') := unescape_step c rest in
      C :: unescape_loop fuel' rest'
  | _, _ => []
  end.

(** [unescape(string)]; every iteration consumes at least one unit, so
    the length of the input bounds the number of iterations. *)
Definition unescape (s : JSString) : JSString := unescape_loop (length s) s.

Definition b64_alphabet : JSString :=
  lit "ABCDEFGHIJKLMNOPQRSTUVWXYZabcdefghijklmnopqrstuvwxyz0123456789+/".

Definition b64_char (i : N) : N := nth (N.to_nat i) b64_alphabet 0%N.

Definition EQUALS : N := 61.

Fixpoint base64_encode (octets : list N) : JSString :=
  match octets with
  | [] => []
  | [a] => [b64_char (a / 4); b64_char (a mod 4 * 16); EQUALS; EQUALS]
  | [a; b] =>
      [b64_char (a / 4); b64_char (a mod 4 * 16 + b / 16);
       b64_char (b mod 16 * 4); EQUALS]
  | a :: b :: c :: rest =>
      [b64_char (a / 4); b64_char (a mod 4 * 16 + b / 16);
       b64_char (b mod 16 * 4 + c / 64); b64_char (c mod 64)]
        ++ base64_encode rest
  end%N.

(** [btoa(data)]: throws when a code unit exceeds 0xFF, else the base64
    text of the units read as octets. *)
Definition btoa (data : JSString) : Result JSString :=
  if forallb (λ c, c <? 256)%N data then Ok (base64_encode data)
  else Throw InvalidCharacterError.

(** ** [Date]

    ECMAScript time values are milliseconds since 1970-01-01T00:00:00Z.
    [YearFromTime] is specified as the largest [y] with
    [TimeFromYear y <= t]; the definition below computes it by 400-, 100-,
    4- and 1-year cycles counted from 1601-01-01 (lemma
    [YearFromTime_bounds] relates it to the specification).  The worker
    runs with the UTC time zone, so local time is the time value itself.
    The time value of [new Date()] is an integer of magnitude at most
    8.64e15, and every year derived from it has at most six digits. *)
Module JSDate.

Definition msPerDay : Z := 86400000.

Definition Day (t : Z) : Z := t / msPerDay.

Definition DayFromYear (y : Z) : Z :=
  365 * (y - 1970) + (y - 1969) / 4 - (y - 1901) / 100 + (y - 1601) / 400.

Definition TimeFromYear (y : Z) : Z := msPerDay * DayFromYear y.

Definition YearFromTime (t : Z) : Z :=
  let d := Day t + 134774 in
  let n400 := d / 146097 in
  let r400 := d mod 146097 in
  let n100 := Z.min (r400 / 36524) 3 in
  let r100 := r400 - n100 * 36524 in
  let n4 := r100 / 1461 in
  let r4 := r100 mod 1461 in
  let n1 := Z.min (r4 / 365) 3 in
  1601 + 400 * n400 + 100 * n100 + 4 * n4 + n1.

Definition LocalTZA : Z := 0.
Definition LocalTime (t : Z) : Z := t + LocalTZA.

(** [Date.prototype.getFullYear] *)
Definition getFullYear (t : Z) : Z := YearFromTime (LocalTime t).

End JSDate.

(** ** Proposals and the [GitHub] object *)

Inductive ProposalId : Type :=
| IdBigint (n : Z)
| IdString (s : JSString).

Inductive ProposalType : Type := executable | social.

Record Proposal : Type := {
  author : JSString;
  id : ProposalId;
  markdown : JSString;
  title : option JSString;   (* [None] is [null] *)
  type : ProposalType;
}.

(** [`${id}`] and [`${type}`] *)
Definition id_toString (i : ProposalId) : JSString :=
  match i with
  | IdBigint n => toString n
  | IdString s => s
  end.

Definition type_toString (t : ProposalType) : JSString :=
  match t with
  | executable => lit "executable"
  | social => lit "social"
  end.

(** The private fields the constructor fills in from the environment
    (the Octokit client itself is part of the runtime below). *)
Record GitHub : Type := {
  owner : JSString;
  repo : JSString;
  upstreamOwner : JSString;
  upstreamRepo : JSString;
}.

(** Modelled from the spec: the type [Env] of the worker's environment,
    declared in [./worker], of which the constructor reads four members
    (the configuration surface: repository owner and name, the API
    credential, the development-mode flag).  The three strings may be
    missing ([None] is [undefined]); of [IS_DEV] only the truthiness is
    used. *)
Record Env : Type := {
  GITHUB_TOKEN : option JSString;
  GITHUB_REPO_OWNER : option JSString;
  GITHUB_REPO_NAME : option JSString;
  IS_DEV : bool;
}.

(** [!value] for a string that may be undefined: the empty string and
    [undefined] are falsy. *)
Definition falsy (value : option JSString) : bool :=
  match value with
  | Some (_ :: _) => false
  | _ => true
  end.

(** [new GitHub(env)] *)
Definition constructor (env : Env) : Result GitHub :=
  if falsy (GITHUB_TOKEN env) || falsy (GITHUB_REPO_OWNER env)
     || falsy (GITHUB_REPO_NAME env)
  then Throw (GenericError (lit "Missing GitHub config"))
  else
    let owner := default [] (GITHUB_REPO_OWNER env) in
    let repo := default [] (GITHUB_REPO_NAME env) in
    if IS_DEV env then
      Ok {| owner := owner; repo := repo;
            upstreamOwner := owner; upstreamRepo := repo |}
    else
      Ok {| owner := owner; repo := repo;
            upstreamOwner := lit "ensdomains"; upstreamRepo := lit "docs" |}.

(** [`prop/${proposal.id}`] *)
Definition branch_of (proposal : Proposal) : JSString :=
  lit "prop/" ++ id_toString (id proposal).

(** ** The runtime

    Everything [GitHub] calls but does not define: the clock, the
    console, prettier and the five REST endpoints of Octokit.  [W] is the
    state of the outside world; an endpoint either returns a response or
    throws, and may change the world. *)

Record ContentEntry : Type := { name : JSString }.

(** [proposals.data]: an array for a directory, an object otherwise. *)
Inductive ContentData : Type :=
| DirectoryListing (entries : list ContentEntry)
| SingleFile (entry : ContentEntry).

Record RefResponse : Type := { ref_name : JSString; object_sha : JSString }.
Record PullResponse : Type := { html_url : JSString }.

Definition Async (W A : Type) : Type := W → Result A * W.

Global Instance Async_ret {W} : MRet (Async W) := λ A a w, (Ok a, w).
Global Instance Async_bind {W} : MBind (Async W) := λ A B f m w,
  match m w with
  | (Ok a, w') => f a w'
  | (Throw e, w') => (Throw e, w')
  end.

Definition throw {W A} (e : Exn) : Async W A := λ w, (Throw e, w).

(** [try { body } catch (error) { handler }] *)
Definition try_catch {W A} (body : Async W A) (handler : Exn → Async W A)
  : Async W A := λ w,
  match body w with
  | (Ok a, w') => (Ok a, w')
  | (Throw e, w') => handler e w'
  end.

(** A synchronous computation inside an async function. *)
Definition lift {W A} (r : Result A) : Async W A := λ w, (r, w).

Class Runtime (W : Type) : Type := {
  (** the time value of [new Date()] *)
  Date_now : W → Z;
  console_log : JSString → W → W;
  console_error : JSString → W → W;
  (** [prettier.format(text, options)] with the options of [formatFile] *)
  prettier_format : JSString → Result JSString;
  (** [octokit.rest.git.getRef({owner, repo, ref})] *)
  git_getRef : JSString → JSString → JSString → Async W RefResponse;
  (** [octokit.rest.git.createRef({owner, repo, ref, sha})] *)
  git_createRef :
    JSString → JSString → JSString → JSString → Async W RefResponse;
  (** [octokit.rest.repos.createOrUpdateFileContents
        ({owner, repo, path, message, content, branch})] *)
  repos_createOrUpdateFileContents :
    JSString → JSString → JSString → JSString → JSString → JSString →
    Async W unit;
  (** [octokit.rest.pulls.create
        ({owner, repo, body, title, head, base, maintainer_can_modify})] *)
  pulls_create :
    JSString → JSString → JSString → JSString → JSString → JSString → bool →
    Async W PullResponse;
  (** [octokit.rest.repos.getContent({owner, repo, path})] *)
  repos_getContent : JSString → JSString → JSString → Async W ContentData;
}.

Section RuntimeEffects.
Context {W : Type} `{Runtime W}.

(** [new Date()] *)
Definition new_Date : Async W Z := λ w, (Ok (Date_now w), w).

(** [console.log(message)] and [console.error(message)] *)
Definition log_to_console (message : JSString) : Async W unit :=
  λ w, (Ok tt, console_log message w).
Definition error_to_console (message : JSString) : Async W unit :=
  λ w, (Ok tt, console_error message w).
End RuntimeEffects.

(** ** The methods of [GitHub] *)

Definition NL : JSString := [10%N].

Definition startingYear : Z := 2025.
Definition startingTerm : Z := 6.

(** [Math.floor((currentYear - startingYear) / 1) + startingTerm] *)
Definition currentTerm_of (currentYear : Z) : Z :=
  (currentYear - startingYear) / 1 + startingTerm.

(** The part of [assignNumber] after the directory listing has arrived. *)
Definition nextNumber (currentTerm : Z) (data : list ContentEntry) : JSString :=
  let currentTermProposals :=
    List.filter (λ file, startsWith (name file) (toString currentTerm ++ lit "."))
                data in
  let currentTermProposalCount := Z.of_nat (length currentTermProposals) in
  let nextProposalNumber :=
    if currentTerm =? 6 then currentTermProposalCount - 2
    else currentTermProposalCount + 1 in
  toString currentTerm ++ lit "." ++ toString nextProposalNumber.

Definition metadataTable_executable (id : JSString) : JSString :=
  lit "
| **Status**            | Active                                                                                                  |
| --------------------- | ------------------------------------------------------------------------------------------------------- |
| **Discussion Thread** | [Forum](https://discuss.ens.domains/t/)                                                           |
| **Votes**             | [Agora](https://agora.ensdao.org/proposals/" ++ id ++ lit "), [Tally](https://tally.ensdao.org/dao/proposal/" ++ id ++ lit ") |".

Definition metadataTable_social (id : JSString) : JSString :=
  lit "
| **Status**            | Active                                                      |
| --------------------- | ----------------------------------------------------------- |
| **Discussion Thread** | [Forum](https://discuss.ens.domains/t/)                     |
| **Votes**             | [Snapshot](https://snapshot.box/#/s:ens.eth/proposal/" ++ id ++ lit ") |".

Definition frontmatter (author type markdown : JSString) : JSString :=
  lit "---
authors:
  - " ++ author ++ lit "
proposal:
  type: '" ++ type ++ lit "'
---

" ++ markdown.

(** The text handed to prettier: the title is replaced when it is truthy
    (neither [null] nor empty), then the front matter is prepended. *)
Definition wrapMarkdown (ep : JSString) (proposal : Proposal) : JSString :=
  let markdown :=
    match title proposal with
    | Some (c :: t) =>
        let title := c :: t in
        let metadataTable :=
          match type proposal with
          | executable => metadataTable_executable (id_toString (id proposal))
          | social => metadataTable_social (id_toString (id proposal))
          end in
        replace (markdown proposal) title
          (lit "[EP " ++ ep ++ lit "] " ++ title ++ NL ++ NL
             ++ lit "::authors" ++ NL ++ NL ++ metadataTable ++ NL)
    | _ => markdown proposal
    end in
  frontmatter (author proposal) (type_toString (type proposal)) markdown.

(** [btoa(unescape(encodeURIComponent(formatted)))] *)
Definition encodeContent (formatted : JSString) : Result JSString :=
  encoded ← encodeURIComponent formatted;
  btoa (unescape encoded).

Section GitHubMethods.
Context {W : Type} `{Runtime W}.
Variable this : GitHub.

Definition proposalsPath : JSString := lit "src/pages/dao/proposals".

Definition assignNumber : Async W JSString :=
  now ← new_Date;
  let currentYear := JSDate.getFullYear now in
  let currentTerm := currentTerm_of currentYear in
  proposals ← repos_getContent (upstreamOwner this) (upstreamRepo this)
                               proposalsPath;
  match proposals with
  | DirectoryListing data => mret (nextNumber currentTerm data)
  | SingleFile _ =>
      throw (GenericError (lit "Proposals directory not found"))
  end.

Definition formatFile (ep : JSString) (proposal : Proposal)
  : Result JSString :=
  formatted ← prettier_format (wrapMarkdown ep proposal);
  encodeContent formatted.

Definition createBranch (branch : JSString)
  : Async W (option RefResponse) :=
  mainBranch ← git_getRef (owner this) (repo this) (lit "heads/master");
  try_catch
    (created ← git_createRef (owner this) (repo this)
                 (lit "refs/heads/" ++ branch) (object_sha mainBranch);
     mret (Some created))
    (λ error,
       if instanceof_RequestError error then
         _ ← error_to_console (error_message error); mret None
       else throw error).

Definition createFile (branch ep : JSString) (proposal : Proposal)
  : Async W unit :=
  content ← lift (formatFile ep proposal);
  repos_createOrUpdateFileContents (owner this) (repo this)
    (lit "src/pages/dao/proposals/" ++ ep ++ lit ".mdx")
    (lit "Add EP " ++ ep)
    content
    branch.

Definition pullRequestBody : JSString :=
  lit "This is an automated pull request to add a new DAO proposal to the ENS docs.".

Definition openPullRequest (branch ep : JSString) : Async W PullResponse :=
  pulls_create (upstreamOwner this) (upstreamRepo this)
    pullRequestBody
    (lit "Add EP " ++ ep)
    (owner this ++ lit ":" ++ branch)
    (lit "master")
    true.

Definition addProposal (proposal : Proposal) : Async W unit :=
  let branch := branch_of proposal in
  ep ← assignNumber;
  createdBranch ← createBranch branch;
  match createdBranch with
  | Some _ =>
      _ ← createFile branch ep proposal;
      pr ← openPullRequest branch ep;
      log_to_console (lit "Created PR " ++ html_url pr)
  | None => mret tt
  end.

End GitHubMethods.

(** ** A model of the outside world

    The state of the two repositories as the REST endpoints see it: the
    directory listings, the refs, the commits made through the contents
    endpoint and the pull requests.  [faults] schedules transport or
    server failures: every request consumes one entry, and an entry
    [Some e] makes that request throw [e] without any effect. *)

Record FileCommit : Type := {
  fc_owner : JSString; fc_repo : JSString; fc_path : JSString;
  fc_message : JSString; fc_content : JSString; fc_branch : JSString;
}.

Record PullRequest : Type := {
  pr_owner : JSString; pr_repo : JSString; pr_body : JSString;
  pr_title : JSString; pr_head : JSString; pr_base : JSString;
  pr_maintainer_can_modify : bool;
}.

Inductive ConsoleLine : Type :=
| LogLine (message : JSString)
| ErrorLine (message : JSString).

Record World : Type := {
  clock : Z;
  contents : gmap (JSString * JSString * JSString) ContentData;
  refs : gmap (JSString * JSString * JSString) JSString;
  commits : list FileCommit;
  pulls : list PullRequest;
  console : list ConsoleLine;
  faults : list (option Exn);
}.

Module Model.

Definition with_faults (f : list (option Exn)) (w : World) : World :=
  {| clock := clock w; contents := contents w; refs := refs w;
     commits := commits w; pulls := pulls w; console := console w;
     faults := f |}.

Definition with_refs
  (r : gmap (JSString * JSString * JSString) JSString) (w : World) : World :=
  {| clock := clock w; contents := contents w; refs := r;
     commits := commits w; pulls := pulls w; console := console w;
     faults := faults w |}.

Definition with_commits (c : list FileCommit) (w : World) : World :=
  {| clock := clock w; contents := contents w; refs := refs w;
     commits := c; pulls := pulls w; console := console w;
     faults := faults w |}.

Definition with_pulls (p : list PullRequest) (w : World) : World :=
  {| clock := clock w; contents := contents w; refs := refs w;
     commits := commits w; pulls := p; console := console w;
     faults := faults w |}.

Definition with_console (c : list ConsoleLine) (w : World) : World :=
  {| clock := clock w; contents := contents w; refs := refs w;
     commits := commits w; pulls := pulls w; console := c;
     faults := faults w |}.

(** A request: the scheduled fault if there is one, else the endpoint. *)
Definition request {A} (endpoint : Async World A) : Async World A := λ w,
  match faults w with
  | [] => endpoint w
  | None :: later => endpoint (with_faults later w)
  | Some e :: later => (Throw e, with_faults later w)
  end.

Definition not_found : Exn := RequestError 404 (lit "Not Found").
Definition already_exists : Exn :=
  RequestError 422 (lit "Reference already exists").

Definition getRef (owner repo ref : JSString) : Async World RefResponse :=
  request (λ w,
    match refs w !! (owner, repo, lit "refs/" ++ ref) with
    | Some sha =>
        (Ok {| ref_name := lit "refs/" ++ ref; object_sha := sha |}, w)
    | None => (Throw not_found, w)
    end).

(** Creating a ref that exists is refused with status 422. *)
Definition createRef (owner repo ref sha : JSString)
  : Async World RefResponse :=
  request (λ w,
    match refs w !! (owner, repo, ref) with
    | Some _ => (Throw already_exists, w)
    | None =>
        (Ok {| ref_name := ref; object_sha := sha |},
         with_refs (<[(owner, repo, ref) := sha]> (refs w)) w)
    end).

Definition createOrUpdateFileContents
  (owner repo path message content branch : JSString) : Async World unit :=
  request (λ w,
    match refs w !! (owner, repo, lit "refs/heads/" ++ branch) with
    | Some _ =>
        (Ok tt,
         with_commits
           (commits w ++
              [{| fc_owner := owner; fc_repo := repo; fc_path := path;
                  fc_message := message; fc_content := content;
                  fc_branch := branch |}]) w)
    | None => (Throw not_found, w)
    end).

Definition createPull (owner repo body title head base : JSString)
  (maintainer_can_modify : bool) : Async World PullResponse :=
  request (λ w,
    (Ok {| html_url :=
             lit "https://github.com/" ++ owner ++ lit "/" ++ repo
               ++ lit "/pull/" ++ toString (Z.of_nat (S (length (pulls w)))) |},
     with_pulls
       (pulls w ++
          [{| pr_owner := owner; pr_repo := repo; pr_body := body;
              pr_title := title; pr_head := head; pr_base := base;
              pr_maintainer_can_modify := maintainer_can_modify |}]) w)).

Definition getContent (owner repo path : JSString) : Async World ContentData :=
  request (λ w,
    match contents w !! (owner, repo, path) with
    | Some data => (Ok data, w)
    | None => (Throw not_found, w)
    end).

(** The runtime over [World], for a given behaviour of prettier. *)
Definition runtime (format : JSString → Result JSString) : Runtime World := {|
  Date_now := clock;
  console_log := λ m w, with_console (console w ++ [LogLine m]) w;
  console_error := λ m w, with_console (console w ++ [ErrorLine m]) w;
  prettier_format := format;
  git_getRef := getRef;
  git_createRef := createRef;
  repos_createOrUpdateFileContents := createOrUpdateFileContents;
  pulls_create := createPull;
  repos_getContent := getContent;
|}.

(** What a run leaves behind in the repositories. *)
Definition artifacts (w : World)
  : gmap (JSString * JSString * JSString) JSString
    * list FileCommit * list PullRequest :=
  (refs w, commits w, pulls w).

Definition branch_key (this : GitHub) (branch : JSString)
  : JSString * JSString * JSString :=
  (owner this, repo this, lit "refs/heads/" ++ branch).

(** No fault is scheduled, the upstream proposals path is a directory
    and the fork has a master branch. *)
Definition healthy (this : GitHub) (w : World) : Prop :=
  faults w = []
  ∧ (∃ data, contents w !! (upstreamOwner this, upstreamRepo this,
                            proposalsPath) = Some (DirectoryListing data))
  ∧ is_Some (refs w !! branch_key this (lit "master")).


(** The world a fault-free first call leaves behind. *)
Definition published (this : GitHub) (proposal : Proposal) (ep content sha : JSString)
    (w : World) : World :=
  let branch := branch_of proposal in
  let w1 := with_refs (<[branch_key this branch := sha]> (refs w)) w in
  let w2 := with_commits
              (commits w1 ++
                 [{| fc_owner := owner this; fc_repo := repo this;
                     fc_path := lit "src/pages/dao/proposals/" ++ ep
                                  ++ lit ".mdx";
                     fc_message := lit "Add EP " ++ ep;
                     fc_content := content; fc_branch := branch |}]) w1 in
  let w3 := with_pulls
              (pulls w2 ++
                 [{| pr_owner := upstreamOwner this;
                     pr_repo := upstreamRepo this;
                     pr_body := pullRequestBody;
                     pr_title := lit "Add EP " ++ ep;
                     pr_head := owner this ++ lit ":" ++ branch;
                     pr_base := lit "master";
                     pr_maintainer_can_modify := true |}]) w2 in
  with_console
    (console w3 ++
       [LogLine (lit "Created PR "
                   ++ lit "https://github.com/" ++ upstreamOwner this
                   ++ lit "/" ++ upstreamRepo this ++ lit "/pull/"
                   ++ toString (Z.of_nat (S (length (pulls w)))))]) w3.

End Model.

(** ** Specification-side notions

    The claims speak of notions that [github.ts] does not define: the
    number of names with a given prefix, a title occurring in a body, a
    well-formed Unicode string, and the decoding of the committed
    content.  They are defined here independently of the code above. *)

(** The number of names that start with [pre]. *)
Definition count_prefixed (pre : JSString) (names : list JSString) : nat :=
  length (filter (λ n : JSString, pre `prefix_of` n) names).

(** [t] occurs verbatim in [s]. *)
Definition occurs_in (t s : JSString) : Prop :=
  ∃ before after, s = before ++ t ++ after.

(** A Unicode string in UTF-16: every surrogate is part of a pair. *)
Fixpoint well_formed (s : JSString) : bool :=
  match s with
  | [] => true
  | c :: rest =>
      if is_leading_surrogate c then
        match rest with
        | d :: rest' => is_trailing_surrogate d && well_formed rest'
        | [] => false
        end
      else negb (is_trailing_surrogate c) && well_formed rest
  end.

Definition b64_index (c : N) : option N :=
  (if in_range 65 90 c then Some (c - 65)
   else if in_range 97 122 c then Some (c - 71)
   else if in_range 48 57 c then Some (c + 4)
   else if c =? 43 then Some 62
   else if c =? 47 then Some 63
   else None)%N.

(** Base64 decoding (RFC 4648, with padding). *)
Fixpoint base64_decode (s : JSString) : option (list N) :=
  match s with
  | [] => Some []
  | c1 :: c2 :: c3 :: c4 :: rest =>
      i1 ← b64_index c1;
      i2 ← b64_index c2;
      let o1 := (i1 * 4 + i2 / 16)%N in
      if (c3 =? EQUALS)%N && (c4 =? EQUALS)%N then
        match rest with [] => Some [o1] | _ => None end
      else
        i3 ← b64_index c3;
        let o2 := (i2 mod 16 * 16 + i3 / 4)%N in
        if (c4 =? EQUALS)%N then
          match rest with [] => Some [o1; o2] | _ => None end
        else
          i4 ← b64_index c4;
          tl ← base64_decode rest;
          Some (o1 :: o2 :: (i3 mod 4 * 64 + i4)%N :: tl)
  | _ => None
  end.

Definition is_continuation (b : N) : bool := in_range 128 191 b.

(** UTF-16 code units of a code point. *)
Definition CodePointToUTF16 (cp : N) : JSString :=
  (if cp <? 65536 then [cp]
   else [55296 + (cp - 65536) / 1024; 56320 + (cp - 65536) mod 1024])%N.

(** UTF-8 decoding into UTF-16 code units. *)
Fixpoint UTF8_decode (octets : list N) : option JSString :=
  match octets with
  | [] => Some []
  | b0 :: rest =>
      if (b0 <? 128)%N then tl ← UTF8_decode rest; Some (b0 :: tl)
      else if (b0 <? 192)%N then None
      else if (b0 <? 224)%N then
        match rest with
        | b1 :: rest' =>
            if is_continuation b1 then
              tl ← UTF8_decode rest';
              Some (((b0 - 192) * 64 + (b1 - 128))%N :: tl)
            else None
        | _ => None
        end
      else if (b0 <? 240)%N then
        match rest with
        | b1 :: b2 :: rest' =>
            if is_continuation b1 && is_continuation b2 then
              tl ← UTF8_decode rest';
              Some (((b0 - 224) * 4096 + (b1 - 128) * 64 + (b2 - 128))%N :: tl)
            else None
        | _ => None
        end
      else if (b0 <? 248)%N then
        match rest with
        | b1 :: b2 :: b3 :: rest' =>
            if is_continuation b1 && is_continuation b2 && is_continuation b3
            then
              tl ← UTF8_decode rest';
              Some (CodePointToUTF16
                      ((b0 - 240) * 262144 + (b1 - 128) * 4096
                       + (b2 - 128) * 64 + (b3 - 128))%N ++ tl)
            else None
        | _ => None
        end
      else None
  end.

(** How a reader of the contents API recovers the text: base64 to
    octets, octets as UTF-8. *)
Definition decodeContent (content : JSString) : option JSString :=
  octets ← base64_decode content; UTF8_decode octets.

(** ** A concrete deployment

    The values of the first end-to-end scenario: a fork [ens-bot/docs] of
    [ensdomains/docs], a clock in May 2026 (term 7), two proposals of
    term 7 in the upstream directory, and a formatter that returns its
    input. *)
Module Scenario.

Definition github : GitHub := {|
  owner := lit "ens-bot"; repo := lit "docs";
  upstreamOwner := lit "ensdomains"; upstreamRepo := lit "docs";
|}.

Definition proposal42 : Proposal := {|
  author := lit "alice.eth";
  id := IdString (lit "42");
  markdown := lit "# Fund X" ++ NL ++ NL ++ lit "Details...";
  title := Some (lit "Fund X");
  type := social;
|}.

Definition listing : list ContentEntry :=
  [ {| name := lit "7.1.mdx" |}; {| name := lit "7.2.mdx" |} ].

Definition world : World := {|
  clock := 1780000000000;
  contents :=
    {[ (lit "ensdomains", lit "docs", proposalsPath)
       := DirectoryListing listing ]};
  refs := {[ (lit "ens-bot", lit "docs", lit "refs/heads/master")
             := lit "4f2a9c1" ]};
  commits := []; pulls := []; console := []; faults := [];
|}.

(** The text of scenario 1 before formatting: front matter, the
    heading with the number, the authors placeholder, the table of a
    social proposal, the rest of the body. *)
Definition document42 : JSString :=
  lit "---
authors:
  - alice.eth
proposal:
  type: 'social'
---

# [EP 7.3] Fund X

::authors


| **Status**            | Active                                                      |
| --------------------- | ----------------------------------------------------------- |
| **Discussion Thread** | [Forum](https://discuss.ens.domains/t/)                     |
| **Votes**             | [Snapshot](https://snapshot.box/#/s:ens.eth/proposal/42) |


Details...".

Definition no_formatting (text : JSString) : Result JSString := Ok text.

Definition runtime : Runtime World := Model.runtime no_formatting.

(** The same world with the clock in June 2025 (term 6). *)
Definition world_2025 : World := {|
  clock := 1750000000000;
  contents := contents world; refs := refs world;
  commits := []; pulls := []; console := []; faults := [];
|}.

Definition with_schedule (schedule : list (option Exn)) : World :=
  Model.with_faults schedule world.

End Scenario.

(** ** Further notions used to state properties of the code *)

(** No code unit of [s] is a dollar sign. *)
Definition dollar_free (s : JSString) : bool :=
  forallb (λ c, negb (c =? DOLLAR)%N) s.

(** Every code unit of [s] is ASCII. *)
Definition is_ascii (s : JSString) : bool := forallb (λ c, c <? 128)%N s.

(** A letter of the base64 alphabet or the padding sign. *)
Definition is_base64_unit (c : N) : bool :=
  is_alnum c || (c =? 43)%N || (c =? 47)%N || (c =? EQUALS)%N.


(** The commit and the pull request that [createFile] and
    [openPullRequest] ask for, as the model records them. *)
Definition commit_record (this : GitHub) (branch ep content : JSString)
  : FileCommit :=
  {| fc_owner := owner this; fc_repo := repo this;
     fc_path := lit "src/pages/dao/proposals/" ++ ep ++ lit ".mdx";
     fc_message := lit "Add EP " ++ ep;
     fc_content := content; fc_branch := branch |}.

Definition pull_record (this : GitHub) (branch ep : JSString) : PullRequest :=
  {| pr_owner := upstreamOwner this; pr_repo := upstreamRepo this;
     pr_body := pullRequestBody;
     pr_title := lit "Add EP " ++ ep;
     pr_head := owner this ++ lit ":" ++ branch;
     pr_base := lit "master";
     pr_maintainer_can_modify := true |}.

(** The deployment of [Scenario] in dev mode: the fork is its own
    upstream, so the listing is read from the fork. *)
Module DevScenario.

Definition env : Env := {|
  GITHUB_TOKEN := Some (lit "ghp_token");
  GITHUB_REPO_OWNER := Some (lit "ens-bot");
  GITHUB_REPO_NAME := Some (lit "docs");
  IS_DEV := true;
|}.

Definition github : GitHub := {|
  owner := lit "ens-bot"; repo := lit "docs";
  upstreamOwner := lit "ens-bot"; upstreamRepo := lit "docs";
|}.

Definition world : World := {|
  clock := clock Scenario.world;
  contents :=
    {[ (lit "ens-bot", lit "docs", proposalsPath)
       := DirectoryListing Scenario.listing ]};
  refs := refs Scenario.world;
  commits := []; pulls := []; console := []; faults := [];
|}.

End DevScenario.

Definition FULL_STOP : N := 46.

(** * Lemmas *)

(** Boolean tests on code units as arithmetic facts. *)
Ltac bool_to_prop :=
  repeat match goal with
  | H : _ && _ = true |- _ => apply andb_true_iff in H as [? ?]
  | H : _ && _ = false |- _ => apply andb_false_iff in H as [?|?]
  | H : _ || _ = true |- _ => apply orb_true_iff in H as [?|?]
  | H : _ || _ = false |- _ => apply orb_false_iff in H as [? ?]
  | H : negb _ = true |- _ => apply negb_true_iff in H
  | H : negb _ = false |- _ => apply negb_false_iff in H
  | H : (_ <=? _)%N = true |- _ => apply N.leb_le in H
  | H : (_ <=? _)%N = false |- _ => apply N.leb_gt in H
  | H : (_ <? _)%N = true |- _ => apply N.ltb_lt in H
  | H : (_ <? _)%N = false |- _ => apply N.ltb_ge in H
  | H : (_ =? _)%N = true |- _ => apply N.eqb_eq in H
  | H : (_ =? _)%N = false |- _ => apply N.eqb_neq in H
  end.


Section Base64.
Local Open Scope N_scope.

Lemma b64_index_char_nat (n : nat) :
  (n < 64)%nat →
  b64_index (b64_char (N.of_nat n)) = Some (N.of_nat n)
  ∧ b64_char (N.of_nat n) ≠ EQUALS.
Proof.
  intros Hn.
  do 64 (destruct n as [|n]; [split; [reflexivity | discriminate] |]).
  lia.
Qed.

Lemma b64_index_char (i : N) :
  i < 64 → b64_index (b64_char i) = Some i ∧ b64_char i ≠ EQUALS.
Proof.
  intros Hi. rewrite <- (N2Nat.id i). apply b64_index_char_nat. lia.
Qed.

Lemma b64_char_not_pad (i : N) : i < 64 → (b64_char i =? EQUALS) = false.
Proof. intros Hi. apply N.eqb_neq, b64_index_char, Hi. Qed.

Lemma b64_index_of_char (i : N) : i < 64 → b64_index (b64_char i) = Some i.
Proof. intros Hi. apply b64_index_char, Hi. Qed.

#[local] Ltac Zify.zify_post_hook ::= Z.to_euclidean_division_equations.

#[local] Ltac b64_simpl :=
  repeat match goal with
  | |- context [b64_index (b64_char ?i)] =>
      rewrite (b64_index_of_char i) by lia
  | |- context [b64_char ?i =? EQUALS] =>
      rewrite (b64_char_not_pad i) by lia
  end;
  cbn [mbind option_bind].

Lemma base64_decode_encode_bounded (n : nat) (octets : list N) :
  (length octets ≤ n)%nat →
  Forall (λ o, o < 256) octets →
  base64_decode (base64_encode octets) = Some octets.
Proof.
  revert octets. induction n as [|n IH]; intros octets Hlen Hall.
  { destruct octets; [reflexivity | simpl in Hlen; lia]. }
  destruct octets as [|a [|b [|c rest]]]; [reflexivity|..].
  - apply Forall_cons in Hall as [Ha _].
    cbn [base64_encode base64_decode].
    b64_simpl.
    rewrite N.eqb_refl. cbn [andb]. repeat f_equal; lia.
  - apply Forall_cons in Hall as [Ha Hall].
    apply Forall_cons in Hall as [Hb _].
    cbn [base64_encode base64_decode].
    b64_simpl.
    cbn [andb].
    rewrite N.eqb_refl. repeat f_equal; lia.
  - apply Forall_cons in Hall as [Ha Hall].
    apply Forall_cons in Hall as [Hb Hall].
    apply Forall_cons in Hall as [Hc Hall].
    cbn [base64_encode app base64_decode].
    b64_simpl.
    cbn [andb].
    rewrite IH by (assumption || (simpl in Hlen; lia)).
    cbn [mbind option_bind]. repeat f_equal; lia.
Qed.

Lemma base64_decode_encode (octets : list N) :
  Forall (λ o, o < 256) octets →
  base64_decode (base64_encode octets) = Some octets.
Proof. apply (base64_decode_encode_bounded (length octets)). lia. Qed.
End Base64.

Section Unescape.
Local Open Scope N_scope.
#[local] Ltac Zify.zify_post_hook ::= Z.to_euclidean_division_equations.

Lemma unescape_step_length (c : N) (rest : JSString) :
  (length (snd (unescape_step c rest)) ≤ length rest)%nat.
Proof.
  unfold unescape_step.
  repeat case_match; simplify_eq; cbn [snd]; rewrite ?length_drop; lia.
Qed.

Lemma unescape_loop_fuel (n m : nat) (s : JSString) :
  (length s ≤ n)%nat → (length s ≤ m)%nat →
  unescape_loop n s = unescape_loop m s.
Proof.
  revert m s. induction n as [|n IH]; intros m s Hn Hm.
  - destruct s; [|simpl in Hn; lia]. by destruct m.
  - destruct s as [|c rest]; [by destruct m|].
    destruct m as [|m]; [simpl in Hm; lia|].
    cbn [unescape_loop].
    pose proof (unescape_step_length c rest) as Hlen.
    destruct (unescape_step c rest) as [C rest']. cbn [snd] in Hlen.
    f_equal. simpl in Hn, Hm. apply IH; lia.
Qed.

Lemma unescape_cons (c : N) (rest : JSString) :
  unescape (c :: rest) =
  (unescape_step c rest).1 :: unescape (unescape_step c rest).2.
Proof.
  unfold unescape. cbn [length unescape_loop].
  pose proof (unescape_step_length c rest) as Hlen.
  destruct (unescape_step c rest) as [C rest']. cbn [fst snd] in *.
  f_equal. apply unescape_loop_fuel; lia.
Qed.

Lemma unescape_plain (c : N) (rest : JSString) :
  c ≠ PERCENT → unescape (c :: rest) = c :: unescape rest.
Proof.
  intros Hc. rewrite unescape_cons. unfold unescape_step.
  by apply N.eqb_neq in Hc as ->.
Qed.

Lemma hexValue_hexDigit (x : N) : x < 16 → hexValue (hexDigit x) = Some x.
Proof.
  intros Hx. unfold hexValue, hexDigit, in_range.
  repeat case_match; bool_to_prop; try lia; f_equal; lia.
Qed.

Lemma hexDigit_not_u (x : N) : x < 16 → (hexDigit x =? 117) = false.
Proof.
  intros Hx. unfold hexDigit. apply N.eqb_neq.
  case_match; bool_to_prop; lia.
Qed.

Lemma unescape_percentEncode (o : N) (rest : JSString) :
  o < 256 → unescape (percentEncode o ++ rest) = o :: unescape rest.
Proof.
  intros Ho. unfold percentEncode. cbn [app]. rewrite unescape_cons.
  unfold unescape_step. rewrite N.eqb_refl. cbn [hd].
  rewrite hexDigit_not_u by lia. rewrite andb_false_r.
  cbn [length Nat.leb take drop parseHex].
  rewrite !hexValue_hexDigit by lia.
  cbn [mbind option_bind]. rewrite take_0, drop_0. cbn [parseHex fst snd].
  repeat f_equal; lia.
Qed.

Lemma unescape_octets (octets : list N) (rest : JSString) :
  Forall (λ o, o < 256) octets →
  unescape (concat (percentEncode <$> octets) ++ rest)
  = octets ++ unescape rest.
Proof.
  induction 1 as [|o octets Ho _ IH]; [reflexivity|].
  cbn [fmap list_fmap concat]. rewrite <- app_assoc.
  rewrite unescape_percentEncode by done. by rewrite IH.
Qed.
End Unescape.

Section UTF8.
Local Open Scope N_scope.
#[local] Ltac Zify.zify_post_hook ::= Z.to_euclidean_division_equations.

Lemma is_continuation_true (b : N) :
  128 ≤ b → b ≤ 191 → is_continuation b = true.
Proof.
  intros. unfold is_continuation, in_range.
  apply andb_true_iff; split; apply N.leb_le; lia.
Qed.

#[local] Ltac decide_tests :=
  repeat match goal with
  | |- context [(?a <? ?b)%N] =>
      first [ rewrite (proj2 (N.ltb_lt a b)) by lia
            | rewrite (proj2 (N.ltb_ge a b)) by lia ]
  | |- context [is_continuation ?b] =>
      rewrite (is_continuation_true b) by lia
  end;
  cbn [andb].

Lemma UTF8_octets_bytes (cp : N) :
  cp < 1114112 → Forall (λ o, o < 256) (UTF8_octets cp).
Proof.
  intros Hcp. unfold UTF8_octets.
  repeat case_match; bool_to_prop; repeat constructor; lia.
Qed.

Lemma UTF8_decode_unit (C : N) (octets : list N) :
  C < 65536 →
  UTF8_decode (UTF8_octets C ++ octets)
  = tl ← UTF8_decode octets; Some (C :: tl).
Proof.
  intros HC. unfold UTF8_octets.
  repeat case_match; bool_to_prop; try lia;
    cbn [app UTF8_decode]; decide_tests;
    destruct (UTF8_decode octets); cbn [mbind option_bind];
    repeat f_equal; lia.
Qed.

Lemma UTF8_decode_pair (C D : N) (octets : list N) :
  is_leading_surrogate C = true → is_trailing_surrogate D = true →
  UTF8_decode (UTF8_octets (UTF16SurrogatePairToCodePoint C D) ++ octets)
  = tl ← UTF8_decode octets; Some (C :: D :: tl).
Proof.
  unfold is_leading_surrogate, is_trailing_surrogate, in_range.
  intros HC HD. bool_to_prop.
  unfold UTF8_octets, UTF16SurrogatePairToCodePoint.
  repeat case_match; bool_to_prop; try lia.
  cbn [app UTF8_decode]. decide_tests.
  destruct (UTF8_decode octets); cbn [mbind option_bind]; [|done].
  unfold CodePointToUTF16. decide_tests.
  cbn [app]. repeat f_equal; lia.
Qed.

Lemma pair_code_point_bound (C D : N) :
  is_leading_surrogate C = true → is_trailing_surrogate D = true →
  UTF16SurrogatePairToCodePoint C D < 1114112.
Proof.
  unfold is_leading_surrogate, is_trailing_surrogate, in_range,
    UTF16SurrogatePairToCodePoint.
  intros. bool_to_prop. lia.
Qed.

Lemma uriUnreserved_ascii (C : N) :
  is_uriUnreserved C = true → C < 128 ∧ C ≠ PERCENT.
Proof.
  unfold is_uriUnreserved, is_alnum, in_range, PERCENT. simpl existsb.
  intros. bool_to_prop; lia.
Qed.
End UTF8.

Section Transport.
Local Open Scope N_scope.

Lemma is_jsstring_cons (c : N) (s : JSString) :
  is_jsstring (c :: s) = true ↔ c < 65536 ∧ is_jsstring s = true.
Proof.
  unfold is_jsstring, is_code_unit. cbn [forallb].
  rewrite andb_true_iff, N.ltb_lt. done.
Qed.

Lemma Result_bind_Ok {A B} (f : A → Result B) (r : Result A) (b : B) :
  r ≫= f = Ok b → ∃ a, r = Ok a ∧ f a = Ok b.
Proof. destruct r as [a|e]; [eauto | discriminate]. Qed.

(** [unescape] after [encodeURIComponent] leaves the UTF-8 octets of
    the string, one per code unit. *)
Lemma encode_unescape_bounded (n : nat) (s e : JSString) :
  (length s ≤ n)%nat →
  is_jsstring s = true →
  encodeURIComponent s = Ok e →
  Forall (λ o, o < 256) (unescape e) ∧ UTF8_decode (unescape e) = Some s.
Proof.
  revert s e. induction n as [|n IH]; intros s e Hlen Hjs Henc.
  { destruct s; [|simpl in Hlen; lia].
    injection Henc as <-. by split; [constructor|]. }
  destruct s as [|C rest].
  { injection Henc as <-. by split; [constructor|]. }
  apply is_jsstring_cons in Hjs as [HC Hjs].
  cbn [encodeURIComponent] in Henc. simpl in Hlen.
  destruct (is_uriUnreserved C) eqn:HU.
  - apply Result_bind_Ok in Henc as (r & Hr & [= <-]).
    destruct (IH rest r) as [Hb Hd]; [lia|done..|].
    apply uriUnreserved_ascii in HU as [Hascii Hpercent].
    rewrite unescape_plain by done. split; [constructor; [lia|done]|].
    cbn [UTF8_decode]. rewrite (proj2 (N.ltb_lt C 128)) by done.
    by rewrite Hd.
  - destruct (is_leading_surrogate C) eqn:HL.
    + destruct rest as [|D rest']; [discriminate|].
      destruct (is_trailing_surrogate D) eqn:HT; [|discriminate].
      apply Result_bind_Ok in Henc as (r & Hr & [= <-]).
      apply is_jsstring_cons in Hjs as [HD Hjs]. simpl in Hlen.
      destruct (IH rest' r) as [Hb Hd]; [lia|done..|].
      pose proof (UTF8_octets_bytes _ (pair_code_point_bound C D HL HT)).
      rewrite unescape_octets by done. split; [by apply Forall_app|].
      by rewrite UTF8_decode_pair, Hd.
    + destruct (is_trailing_surrogate C) eqn:HT; [discriminate|].
      apply Result_bind_Ok in Henc as (r & Hr & [= <-]).
      destruct (IH rest r) as [Hb Hd]; [lia|done..|].
      assert (Forall (λ o, o < 256) (UTF8_octets C))
        by (apply UTF8_octets_bytes; lia).
      rewrite unescape_octets by done. split; [by apply Forall_app|].
      by rewrite UTF8_decode_unit, Hd.
Qed.

Lemma encodeURIComponent_total (n : nat) (s : JSString) :
  (length s ≤ n)%nat → well_formed s = true →
  ∃ e, encodeURIComponent s = Ok e.
Proof.
  revert s. induction n as [|n IH]; intros s Hlen Hwf.
  { destruct s; [by eexists | simpl in Hlen; lia]. }
  destruct s as [|C rest]; [by eexists|].
  simpl in Hlen. cbn [encodeURIComponent well_formed] in *.
  destruct (is_uriUnreserved C) eqn:HU.
  - assert (well_formed rest = true) as Hrest.
    { apply uriUnreserved_ascii in HU as [HC _].
      assert (is_leading_surrogate C = false) as HL.
      { unfold is_leading_surrogate, in_range.
        apply andb_false_iff. left. apply N.leb_gt. lia. }
      rewrite HL in Hwf. by apply andb_true_iff in Hwf as [_ ?]. }
    destruct (IH rest) as [r ->]; [lia|done|]. by eexists.
  - destruct (is_leading_surrogate C) eqn:HL.
    + destruct rest as [|D rest']; [discriminate|].
      apply andb_true_iff in Hwf as [-> Hwf]. simpl in Hlen.
      destruct (IH rest') as [r ->]; [lia|done|]. by eexists.
    + apply andb_true_iff in Hwf as [HT Hwf].
      apply negb_true_iff in HT as ->.
      destruct (IH rest) as [r ->]; [lia|done|]. by eexists.
Qed.

Lemma btoa_octets (octets : list N) :
  Forall (λ o, o < 256) octets → btoa octets = Ok (base64_encode octets).
Proof.
  intros Hall. unfold btoa.
  assert (forallb (λ c, c <? 256) octets = true) as ->; [|done].
  apply forallb_forall. intros o Ho. apply N.ltb_lt.
  rewrite Forall_forall in Hall. by apply Hall, list_elem_of_In.
Qed.

Lemma btoa_Ok (data content : JSString) :
  btoa data = Ok content →
  Forall (λ o, o < 256) data ∧ content = base64_encode data.
Proof.
  unfold btoa. destruct (forallb _ data) eqn:Hall; [|discriminate].
  intros [= <-]. split; [|done].
  apply Forall_forall. intros o Ho. apply N.ltb_lt.
  rewrite forallb_forall in Hall. by apply Hall, list_elem_of_In.
Qed.

Lemma decodeContent_encodeContent (s content : JSString) :
  is_jsstring s = true →
  encodeContent s = Ok content →
  decodeContent content = Some s.
Proof.
  intros Hjs Henc. unfold encodeContent in Henc.
  apply Result_bind_Ok in Henc as (e & He & Hb).
  destruct (encode_unescape_bounded (length s) s e) as [Hbytes Hdec];
    [lia|done..|].
  apply btoa_Ok in Hb as [_ ->].
  unfold decodeContent. by rewrite base64_decode_encode.
Qed.

Lemma encodeContent_total (s : JSString) :
  is_jsstring s = true → well_formed s = true →
  ∃ content, encodeContent s = Ok content.
Proof.
  intros Hjs Hwf.
  destruct (encodeURIComponent_total (length s) s) as [e He]; [lia|done|].
  destruct (encode_unescape_bounded (length s) s e) as [Hbytes _];
    [lia|done..|].
  exists (base64_encode (unescape e)).
  unfold encodeContent. rewrite He. cbn [mbind Result_bind].
  by apply btoa_octets.
Qed.
End Transport.


(** * The calendar *)

Section Calendar.
Import JSDate.

Lemma DayFromYear_cycles (a b c e : Z) :
  0 <= b <= 3 → 0 <= c <= 24 → 0 <= e <= 3 →
  DayFromYear (1601 + 400 * a + 100 * b + 4 * c + e)
  = 146097 * a + 36524 * b + 1461 * c + 365 * e - 134774.
Proof. intros. unfold DayFromYear. Z.div_mod_to_equations. lia. Qed.

(** [YearFromTime t] is the year whose first millisecond is the last
    one not after [t]. *)
Lemma YearFromTime_bounds (t : Z) :
  TimeFromYear (YearFromTime t) <= t < TimeFromYear (YearFromTime t + 1).
Proof.
  unfold YearFromTime, TimeFromYear.
  set (d := Day t + 134774).
  set (a := d / 146097). set (r400 := d mod 146097).
  set (b := Z.min (r400 / 36524) 3).
  set (r100 := r400 - b * 36524).
  set (c := r100 / 1461). set (r4 := r100 mod 1461).
  set (e := Z.min (r4 / 365) 3).
  assert (Hr400 : 0 <= r400 < 146097) by (apply Z.mod_pos_bound; lia).
  assert (Hb : 0 <= b <= 3) by (subst b; Z.div_mod_to_equations; lia).
  assert (Hr100 : 0 <= r100 < 36525 ∧ (b < 3 → r100 < 36524))
    by (subst r100 b; Z.div_mod_to_equations; lia).
  assert (Hc : 0 <= c <= 24) by (subst c; Z.div_mod_to_equations; lia).
  assert (Hr4 : 0 <= r4 < 1461) by (apply Z.mod_pos_bound; lia).
  assert (He : 0 <= e <= 3) by (subst e; Z.div_mod_to_equations; lia).
  rewrite DayFromYear_cycles by lia.
  assert (Hd : d = 146097 * a + r400) by (subst a r400; apply Z.div_mod; lia).
  assert (Hr : r100 = 1461 * c + r4) by (subst c r4; apply Z.div_mod; lia).
  assert (Hday : msPerDay * Day t <= t < msPerDay * Day t + msPerDay).
  { unfold Day, msPerDay. Z.div_mod_to_equations; lia. }
  assert (Hlo : 365 * e <= r4) by (subst e; Z.div_mod_to_equations; lia).
  assert (Hb' : b < 3 → r400 < 36524 * (b + 1))
    by (subst b; Z.div_mod_to_equations; lia).
  assert (He' : e < 3 → r4 < 365 * (e + 1))
    by (subst e; Z.div_mod_to_equations; lia).
  assert (Hr100' : r100 = r400 - 36524 * b) by (subst r100; lia).
  assert (Hd0 : Day t = d - 134774) by (subst d; lia).
  clearbody a r400 b r100 c r4 e d.
  split; [unfold msPerDay in *; lia|].
  assert (Hnext : Day t < DayFromYear (1601 + 400 * a + 100 * b + 4 * c + e + 1)).
  { destruct (Z_lt_dec e 3) as [He3|He3].
    - replace (1601 + 400 * a + 100 * b + 4 * c + e + 1)
        with (1601 + 400 * a + 100 * b + 4 * c + (e + 1)) by lia.
      rewrite DayFromYear_cycles by lia. specialize (He' He3). lia.
    - destruct (Z_lt_dec c 24) as [Hc3|Hc3].
      + replace (1601 + 400 * a + 100 * b + 4 * c + e + 1)
          with (1601 + 400 * a + 100 * b + 4 * (c + 1) + 0) by lia.
        rewrite DayFromYear_cycles by lia. lia.
      + destruct (Z_lt_dec b 3) as [Hb3|Hb3].
        * replace (1601 + 400 * a + 100 * b + 4 * c + e + 1)
            with (1601 + 400 * a + 100 * (b + 1) + 4 * 0 + 0) by lia.
          rewrite DayFromYear_cycles by lia. specialize (Hb' Hb3). lia.
        * replace (1601 + 400 * a + 100 * b + 4 * c + e + 1)
            with (1601 + 400 * (a + 1) + 100 * 0 + 4 * 0 + 0) by lia.
          rewrite DayFromYear_cycles by lia. lia. }
  unfold msPerDay in *. lia.
Qed.

Lemma DayFromYear_mono (y1 y2 : Z) :
  y1 <= y2 → DayFromYear y1 <= DayFromYear y2.
Proof. unfold DayFromYear. intros. Z.div_mod_to_equations. lia. Qed.

(** The specification of YearFromTime: no later year starts by [t]. *)
Lemma YearFromTime_largest (t y : Z) :
  TimeFromYear y <= t ↔ y <= YearFromTime t.
Proof.
  pose proof (YearFromTime_bounds t) as [Hlo Hhi]. split; intros Hy.
  - destruct (Z_le_gt_dec y (YearFromTime t)) as [|Hgt]; [done|].
    assert (DayFromYear (YearFromTime t + 1) <= DayFromYear y)
      by (apply DayFromYear_mono; lia).
    unfold TimeFromYear, msPerDay in *. lia.
  - assert (DayFromYear y <= DayFromYear (YearFromTime t))
      by (by apply DayFromYear_mono).
    unfold TimeFromYear, msPerDay in *. lia.
Qed.

Lemma YearFromTime_mono (t1 t2 : Z) :
  t1 <= t2 → YearFromTime t1 <= YearFromTime t2.
Proof.
  intros Ht. apply YearFromTime_largest.
  pose proof (YearFromTime_bounds t1) as [Hlo _]. lia.
Qed.

Lemma getFullYear_mono (t1 t2 : Z) :
  t1 <= t2 → getFullYear t1 <= getFullYear t2.
Proof.
  intros. unfold getFullYear, LocalTime, LocalTZA.
  apply YearFromTime_mono. lia.
Qed.
End Calendar.

(** * Number assignment *)

Section Numbering.

Lemma startsWith_prefix_of (s searchString : JSString) :
  startsWith s searchString = true ↔ searchString `prefix_of` s.
Proof.
  revert s. induction searchString as [|c search' IH]; intros s.
  - split; [intros _; apply prefix_nil | done].
  - destruct s as [|d s']; cbn [startsWith].
    + split; [done | intros Hp; by apply prefix_nil_not in Hp].
    + destruct (N.eqb_spec d c) as [->|Hne].
      * rewrite IH. split; [apply prefix_cons | apply prefix_cons_inv_2].
      * split; [done | intros Hp; by apply prefix_cons_inv_1 in Hp].
Qed.

Lemma filter_startsWith_count (pre : JSString) (data : list ContentEntry) :
  length (List.filter (λ file, startsWith (name file) pre) data)
  = count_prefixed pre (name <$> data).
Proof.
  unfold count_prefixed.
  induction data as [|file data IH]; [done|].
  cbn [List.filter fmap list_fmap]. rewrite filter_cons.
  destruct (startsWith (name file) pre) eqn:Hs.
  - apply startsWith_prefix_of in Hs.
    rewrite decide_True by done. cbn [length]. by rewrite IH.
  - rewrite decide_False; [done|].
    intros Hp. apply startsWith_prefix_of in Hp. congruence.
Qed.

Lemma nextNumber_general (t : Z) (data : list ContentEntry) :
  t ≠ 6 →
  nextNumber t data
  = toString t ++ lit "."
      ++ toString (Z.of_nat (count_prefixed (toString t ++ lit ".")
                               (name <$> data)) + 1).
Proof.
  intros Ht. unfold nextNumber.
  rewrite filter_startsWith_count.
  by apply Z.eqb_neq in Ht as ->.
Qed.

Lemma nextNumber_term6 (data : list ContentEntry) :
  nextNumber 6 data
  = lit "6."
      ++ toString (Z.of_nat (count_prefixed (lit "6.") (name <$> data)) - 2).
Proof. unfold nextNumber. by rewrite filter_startsWith_count. Qed.

End Numbering.

(** * Control flow of the methods, for every runtime *)

Section Flow.
Context {W : Type} `{Runtime W}.

Lemma Async_bind_Ok {A B} (m : Async W A) (f : A → Async W B)
    (w w' : W) (a : A) :
  m w = (Ok a, w') → (m ≫= f) w = f a w'.
Proof. intros Hm. unfold mbind, Async_bind. by rewrite Hm. Qed.

Lemma Async_bind_Throw {A B} (m : Async W A) (f : A → Async W B)
    (w w' : W) (e : Exn) :
  m w = (Throw e, w') → (m ≫= f) w = (Throw e, w').
Proof. intros Hm. unfold mbind, Async_bind. by rewrite Hm. Qed.

Variable this : GitHub.

#[local] Abbreviation listing_request :=
  (repos_getContent (upstreamOwner this) (upstreamRepo this) proposalsPath).

Lemma assignNumber_directory (w w' : W) (data : list ContentEntry) :
  listing_request w = (Ok (DirectoryListing data), w') →
  assignNumber this w
  = (Ok (nextNumber (currentTerm_of (JSDate.getFullYear (Date_now w))) data),
     w').
Proof.
  intros Hl. unfold assignNumber.
  rewrite (Async_bind_Ok _ _ w w (Date_now w)) by done.
  by rewrite (Async_bind_Ok _ _ _ _ _ Hl).
Qed.

Lemma assignNumber_not_directory (w w' : W) (entry : ContentEntry) :
  listing_request w = (Ok (SingleFile entry), w') →
  assignNumber this w
  = (Throw (GenericError (lit "Proposals directory not found")), w').
Proof.
  intros Hl. unfold assignNumber.
  rewrite (Async_bind_Ok _ _ w w (Date_now w)) by done.
  by rewrite (Async_bind_Ok _ _ _ _ _ Hl).
Qed.

Lemma assignNumber_throws (w w' : W) (e : Exn) :
  listing_request w = (Throw e, w') →
  assignNumber this w = (Throw e, w').
Proof.
  intros Hl. unfold assignNumber.
  rewrite (Async_bind_Ok _ _ w w (Date_now w)) by done.
  by rewrite (Async_bind_Throw _ _ _ _ _ Hl).
Qed.

Lemma addProposal_assign_throws (proposal : Proposal) (w w' : W) (e : Exn) :
  assignNumber this w = (Throw e, w') →
  addProposal this proposal w = (Throw e, w').
Proof. intros Ha. unfold addProposal. by rewrite (Async_bind_Throw _ _ _ _ _ Ha). Qed.

Lemma addProposal_branch_null (proposal : Proposal) (w w1 w2 : W)
    (ep : JSString) :
  assignNumber this w = (Ok ep, w1) →
  createBranch this (branch_of proposal) w1 = (Ok None, w2) →
  addProposal this proposal w = (Ok tt, w2).
Proof.
  intros Ha Hb. unfold addProposal.
  rewrite (Async_bind_Ok _ _ _ _ _ Ha).
  by rewrite (Async_bind_Ok _ _ _ _ _ Hb).
Qed.

Lemma addProposal_branch_throws (proposal : Proposal) (w w1 w2 : W)
    (ep : JSString) (e : Exn) :
  assignNumber this w = (Ok ep, w1) →
  createBranch this (branch_of proposal) w1 = (Throw e, w2) →
  addProposal this proposal w = (Throw e, w2).
Proof.
  intros Ha Hb. unfold addProposal.
  rewrite (Async_bind_Ok _ _ _ _ _ Ha).
  by rewrite (Async_bind_Throw _ _ _ _ _ Hb).
Qed.

Lemma addProposal_branch_created (proposal : Proposal) (w w1 w2 : W)
    (ep : JSString) (created : RefResponse) :
  assignNumber this w = (Ok ep, w1) →
  createBranch this (branch_of proposal) w1 = (Ok (Some created), w2) →
  addProposal this proposal w
  = (_ ← createFile this (branch_of proposal) ep proposal;
     pr ← openPullRequest this (branch_of proposal) ep;
     log_to_console (lit "Created PR " ++ html_url pr)) w2.
Proof.
  intros Ha Hb. unfold addProposal.
  rewrite (Async_bind_Ok _ _ _ _ _ Ha).
  by rewrite (Async_bind_Ok _ _ _ _ _ Hb).
Qed.

Lemma createFile_unformatted (branch ep : JSString) (proposal : Proposal)
    (w : W) (e : Exn) :
  formatFile ep proposal = Throw e →
  createFile this branch ep proposal w = (Throw e, w).
Proof.
  intros Hf. unfold createFile.
  by rewrite (Async_bind_Throw _ _ w w e) by (unfold lift; by rewrite Hf).
Qed.

Lemma createFile_formatted (branch ep : JSString) (proposal : Proposal)
    (w : W) (content : JSString) :
  formatFile ep proposal = Ok content →
  createFile this branch ep proposal w
  = repos_createOrUpdateFileContents (owner this) (repo this)
      (lit "src/pages/dao/proposals/" ++ ep ++ lit ".mdx")
      (lit "Add EP " ++ ep) content branch w.
Proof.
  intros Hf. unfold createFile.
  by rewrite (Async_bind_Ok _ _ w w content) by (unfold lift; by rewrite Hf).
Qed.

#[local] Abbreviation master_request :=
  (git_getRef (owner this) (repo this) (lit "heads/master")).

Lemma createBranch_master_throws (branch : JSString) (w w' : W) (e : Exn) :
  master_request w = (Throw e, w') →
  createBranch this branch w = (Throw e, w').
Proof. intros Hm. unfold createBranch. by rewrite (Async_bind_Throw _ _ _ _ _ Hm). Qed.

Lemma createBranch_after_master (branch : JSString) (w w1 : W)
    (mainBranch : RefResponse) :
  master_request w = (Ok mainBranch, w1) →
  createBranch this branch w
  = match git_createRef (owner this) (repo this)
            (lit "refs/heads/" ++ branch) (object_sha mainBranch) w1 with
    | (Ok created, w2) => (Ok (Some created), w2)
    | (Throw (RequestError _ message), w2) =>
        (Ok None, console_error message w2)
    | (Throw e, w2) => (Throw e, w2)
    end.
Proof.
  intros Hm. unfold createBranch. rewrite (Async_bind_Ok _ _ _ _ _ Hm).
  unfold try_catch, mbind, Async_bind.
  destruct (git_createRef _ _ _ _ w1) as [[created|e] w2]; [done|].
  by destruct e.
Qed.

End Flow.

(** * The model of the outside world *)

Section ModelLemmas.
Import Model.

Lemma artifacts_eq (w w' : World) :
  artifacts w' = artifacts w ↔
  refs w' = refs w ∧ commits w' = commits w ∧ pulls w' = pulls w.
Proof. unfold artifacts. split; [by intros [= -> -> ->] | by intros (-> & -> & ->)]. Qed.

(** A request either fails by the schedule, leaving the repositories
    alone, or runs its endpoint in a world with the same repositories. *)
Lemma request_cases {A} (endpoint : Async World A) (w w' : World)
    (r : Result A) :
  request endpoint w = (r, w') →
  (∃ e, r = Throw e ∧ faults w ≠ [] ∧ artifacts w' = artifacts w)
  ∨ (∃ w0, artifacts w0 = artifacts w ∧ contents w0 = contents w
           ∧ endpoint w0 = (r, w')).
Proof.
  unfold request. destruct (faults w) as [|[e|] later] eqn:Hf.
  - intros He. right. by exists w.
  - intros [= <- <-]. left. by exists e.
  - intros He. right. by exists (with_faults later w).
Qed.

Lemma request_healthy {A} (endpoint : Async World A) (w : World) :
  faults w = [] → request endpoint w = endpoint w.
Proof. intros Hf. unfold request. by rewrite Hf. Qed.

Lemma getContent_artifacts (o r p : JSString) (w w' : World)
    (res : Result ContentData) :
  getContent o r p w = (res, w') → artifacts w' = artifacts w.
Proof.
  intros Hg. apply request_cases in Hg as [(e & _ & _ & ?)|(w0 & ? & _ & Hg)];
    [done|].
  cbv beta in Hg. destruct (contents w0 !! _); simplify_eq;
    by apply artifacts_eq.
Qed.

Lemma getRef_artifacts (o r ref : JSString) (w w' : World)
    (res : Result RefResponse) :
  getRef o r ref w = (res, w') → artifacts w' = artifacts w.
Proof.
  intros Hg. apply request_cases in Hg as [(e & _ & _ & ?)|(w0 & ? & _ & Hg)];
    [done|].
  cbv beta in Hg. destruct (refs w0 !! _); simplify_eq;
    by apply artifacts_eq.
Qed.

(** Creating a ref adds exactly that ref, and only when it is new. *)
Lemma createRef_cases (o r ref sha : JSString) (w w' : World)
    (res : Result RefResponse) :
  createRef o r ref sha w = (res, w') →
  (∃ e, res = Throw e ∧ artifacts w' = artifacts w)
  ∨ (∃ created, res = Ok created ∧ refs w !! (o, r, ref) = None
       ∧ refs w' = <[(o, r, ref) := sha]> (refs w)
       ∧ commits w' = commits w ∧ pulls w' = pulls w).
Proof.
  intros Hc.
  apply request_cases in Hc as [(e & -> & _ & ?)|(w0 & Ha & _ & Hc)];
    [left; by exists e|].
  apply artifacts_eq in Ha as (Hr & Hco & Hp). rewrite <- Hr.
  cbv beta in Hc. destruct (refs w0 !! _) eqn:Hl; simplify_eq.
  - left. eexists. split; [done|]. by apply artifacts_eq.
  - right. eexists. by repeat split.
Qed.

Lemma createFile_cases (o r path message content branch : JSString)
    (w w' : World) (res : Result unit) :
  createOrUpdateFileContents o r path message content branch w = (res, w') →
  (∃ e, res = Throw e ∧ artifacts w' = artifacts w)
  ∨ (res = Ok tt ∧ refs w' = refs w ∧ pulls w' = pulls w
     ∧ commits w'
       = commits w ++
           [{| fc_owner := o; fc_repo := r; fc_path := path;
               fc_message := message; fc_content := content;
               fc_branch := branch |}]).
Proof.
  intros Hc.
  apply request_cases in Hc as [(e & -> & _ & ?)|(w0 & Ha & _ & Hc)];
    [left; by exists e|].
  apply artifacts_eq in Ha as (Hr & Hco & Hp). rewrite <- Hr, <- Hco, <- Hp.
  cbv beta in Hc. destruct (refs w0 !! _) eqn:Hl; simplify_eq.
  - right. by repeat split.
  - left. eexists. split; [done|]. by apply artifacts_eq.
Qed.

Lemma createPull_cases (o r body title head base : JSString) (m : bool)
    (w w' : World) (res : Result PullResponse) :
  createPull o r body title head base m w = (res, w') →
  (∃ e, res = Throw e ∧ artifacts w' = artifacts w)
  ∨ (∃ pr, res = Ok pr ∧ refs w' = refs w ∧ commits w' = commits w
     ∧ pulls w'
       = pulls w ++
           [{| pr_owner := o; pr_repo := r; pr_body := body;
               pr_title := title; pr_head := head; pr_base := base;
               pr_maintainer_can_modify := m |}]).
Proof.
  intros Hc.
  apply request_cases in Hc as [(e & -> & _ & ?)|(w0 & Ha & _ & Hc)];
    [left; by exists e|].
  apply artifacts_eq in Ha as (Hr & Hco & Hp). rewrite <- Hr, <- Hco, <- Hp.
  cbv beta in Hc. simplify_eq. right. eexists. by repeat split.
Qed.
End ModelLemmas.

Section ModelRuns.
Import Model.
Variable format : JSString → Result JSString.
#[local] Hint Extern 0 (Runtime World) =>
  exact (runtime format) : typeclass_instances.
Variable this : GitHub.

Lemma assignNumber_artifacts (w w' : World) (r : Result JSString) :
  assignNumber this w = (r, w') → artifacts w' = artifacts w.
Proof.
  destruct (repos_getContent (upstreamOwner this) (upstreamRepo this)
              proposalsPath w) as [[[data|entry]|e] w1] eqn:Hg;
    pose proof (getContent_artifacts _ _ _ _ _ _ Hg) as Ha.
  - rewrite (assignNumber_directory this w w1 data Hg). by intros [= <- <-].
  - rewrite (assignNumber_not_directory this w w1 entry Hg). by intros [= <- <-].
  - rewrite (assignNumber_throws this w w1 e Hg). by intros [= <- <-].
Qed.

(** [createBranch] returns a ref only for a branch that did not exist,
    and then adds exactly that ref; in every other case the
    repositories are as before. *)
Lemma createBranch_cases (branch : JSString) (w w' : World)
    (r : Result (option RefResponse)) :
  createBranch this branch w = (r, w') →
  ((∀ created, r ≠ Ok (Some created)) ∧ artifacts w' = artifacts w)
  ∨ (∃ created sha, r = Ok (Some created)
       ∧ refs w !! branch_key this branch = None
       ∧ refs w' = <[branch_key this branch := sha]> (refs w)
       ∧ commits w' = commits w ∧ pulls w' = pulls w).
Proof.
  destruct (git_getRef (owner this) (repo this) (lit "heads/master") w)
    as [[mainBranch|e] w1] eqn:Hm;
    pose proof (getRef_artifacts _ _ _ _ _ _ Hm) as Ha1.
  2:{ rewrite (createBranch_master_throws this branch w w1 e Hm).
      intros [= <- <-]. by left. }
  rewrite (createBranch_after_master this branch w w1 mainBranch Hm).
  change (git_createRef (owner this) (repo this)) with
    (createRef (owner this) (repo this)).
  destruct (createRef _ _ _ _ w1) as [res w2] eqn:Hc.
  apply artifacts_eq in Ha1 as (Hr1 & Hc1 & Hp1).
  apply createRef_cases in Hc
    as [(e & -> & Ha2)|(created & -> & Hnone & Hr2 & Hc2 & Hp2)].
  - apply artifacts_eq in Ha2 as (Hr2 & Hc2 & Hp2).
    left. destruct e; simplify_eq; (split; [done|]);
      apply artifacts_eq; cbn; by rewrite ?Hr2, ?Hc2, ?Hp2.
  - intros [= <- <-]. right. exists created, (object_sha mainBranch).
    unfold branch_key. rewrite <- Hr1, <- Hc1, <- Hp1. by repeat split.
Qed.

Lemma createBranch_exists (branch : JSString) (w w' : World)
    (r : Result (option RefResponse)) :
  is_Some (refs w !! branch_key this branch) →
  createBranch this branch w = (r, w') →
  (∀ created, r ≠ Ok (Some created)) ∧ artifacts w' = artifacts w.
Proof.
  intros Hs Hb. apply createBranch_cases in Hb as [?|(c & sha & _ & Hn & _)];
    [done|].
  rewrite Hn in Hs. by destruct Hs.
Qed.

(** After a fresh branch: at most one commit, then at most one pull
    request, and no pull request without the commit. *)
Lemma publish_cases (branch ep : JSString) (proposal : Proposal)
    (w w' : World) (r : Result unit) :
  (_ ← createFile this branch ep proposal;
   pr ← openPullRequest this branch ep;
   log_to_console (lit "Created PR " ++ html_url pr)) w = (r, w') →
  refs w' = refs w
  ∧ ((∃ e, r = Throw e ∧ commits w' = commits w ∧ pulls w' = pulls w)
     ∨ (∃ c e, r = Throw e ∧ commits w' = commits w ++ [c]
          ∧ pulls w' = pulls w)
     ∨ (∃ c pr, r = Ok tt ∧ commits w' = commits w ++ [c]
          ∧ pulls w' = pulls w ++ [pr])).
Proof.
  destruct (createFile this branch ep proposal w) as [res w1] eqn:Hf.
  assert ((∃ e, res = Throw e ∧ artifacts w1 = artifacts w)
          ∨ (∃ c, res = Ok tt ∧ refs w1 = refs w ∧ pulls w1 = pulls w
               ∧ commits w1 = commits w ++ [c])) as Hfile.
  { destruct (@formatFile World _ ep proposal) as [content|e] eqn:Hfmt.
    - rewrite (createFile_formatted this _ _ _ _ content Hfmt) in Hf.
      apply createFile_cases in Hf as [?|(? & ? & ? & ?)]; [by left|].
      right. by eexists.
    - rewrite (createFile_unformatted this _ _ _ _ e Hfmt) in Hf.
      simplify_eq. left. by exists e. }
  destruct Hfile as [(e & -> & Ha)|(c & -> & Hr1 & Hp1 & Hc1)].
  { rewrite (Async_bind_Throw _ _ _ _ _ Hf). intros [= <- <-].
    apply artifacts_eq in Ha as (? & ? & ?).
    split; [done|]. left. by exists e. }
  rewrite (Async_bind_Ok _ _ _ _ _ Hf).
  destruct (openPullRequest this branch ep w1) as [res w2] eqn:Hp.
  pose proof Hp as Hp'. unfold openPullRequest in Hp'.
  apply createPull_cases in Hp'
    as [(e & -> & Ha)|(pr & -> & Hr2 & Hc2 & Hp2)].
  { rewrite (Async_bind_Throw _ _ _ _ _ Hp). intros [= <- <-].
    apply artifacts_eq in Ha as (? & ? & ?).
    split; [congruence|]. right; left.
    exists c, e. repeat split; congruence. }
  rewrite (Async_bind_Ok _ _ _ _ _ Hp). intros [= <- <-]. cbn.
  split; [congruence|]. right; right.
  eexists c, _. repeat split; [congruence|]. rewrite Hp2. by rewrite Hp1.
Qed.

(** One call of [addProposal]: nothing changes, or the branch of the
    proposal is new and is added, with at most one commit and at most
    one pull request (the latter only after the commit). *)
Lemma addProposal_cases (proposal : Proposal) (w w' : World)
    (r : Result unit) :
  addProposal this proposal w = (r, w') →
  artifacts w' = artifacts w
  ∨ (refs w !! branch_key this (branch_of proposal) = None
     ∧ (∃ sha, refs w'
               = <[branch_key this (branch_of proposal) := sha]> (refs w))
     ∧ ((commits w' = commits w ∧ pulls w' = pulls w)
        ∨ (∃ c, commits w' = commits w ++ [c]
             ∧ (pulls w' = pulls w
                ∨ ∃ pr, r = Ok tt ∧ pulls w' = pulls w ++ [pr])))).
Proof.
  destruct (assignNumber this w) as [[ep|e] w1] eqn:Ha;
    pose proof (assignNumber_artifacts _ _ _ Ha) as Ha1.
  2:{ rewrite (addProposal_assign_throws this proposal w w1 e Ha).
      intros [= <- <-]. by left. }
  apply artifacts_eq in Ha1 as (Hr1 & Hc1 & Hp1).
  destruct (createBranch this (branch_of proposal) w1)
    as [[[created|]|e] w2] eqn:Hb;
    pose proof (createBranch_cases _ _ _ _ Hb) as Hb'.
  - rewrite (addProposal_branch_created this proposal w w1 w2 ep created Ha Hb).
    destruct Hb' as [[Hno _]|(c' & sha & _ & Hnone & Hr2 & Hc2 & Hp2)];
      [by destruct (Hno created)|].
    intros Hpub. apply publish_cases in Hpub as [Hr3 Hpub].
    right. rewrite <- Hr1. split; [done|]. split.
    { exists sha. congruence. }
    destruct Hpub as [(e & _ & ? & ?)|[(c & e & _ & ? & ?)|(c & pr & ? & ? & ?)]].
    + left. split; congruence.
    + right. exists c. split; [congruence|]. left. congruence.
    + right. exists c. split; [congruence|]. right. exists pr.
      split; [done|]. congruence.
  - rewrite (addProposal_branch_null this proposal w w1 w2 ep Ha Hb).
    intros [= <- <-]. left.
    destruct Hb' as [[_ Ha2]|(c & sha & ? & _)]; [|done].
    apply artifacts_eq in Ha2 as (? & ? & ?).
    apply artifacts_eq. repeat split; congruence.
  - rewrite (addProposal_branch_throws this proposal w w1 w2 ep e Ha Hb).
    intros [= <- <-]. left.
    destruct Hb' as [[_ Ha2]|(c & sha & ? & _)]; [|done].
    apply artifacts_eq in Ha2 as (? & ? & ?).
    apply artifacts_eq. repeat split; congruence.
Qed.

Lemma addProposal_branch_exists (proposal : Proposal) (w w' : World)
    (r : Result unit) :
  is_Some (refs w !! branch_key this (branch_of proposal)) →
  addProposal this proposal w = (r, w') →
  artifacts w' = artifacts w.
Proof.
  intros Hs Hadd. apply addProposal_cases in Hadd as [?|(Hn & _)]; [done|].
  rewrite Hn in Hs. by destruct Hs.
Qed.

Lemma assignNumber_healthy (w : World) :
  healthy this w →
  ∃ data,
    contents w !! (upstreamOwner this, upstreamRepo this, proposalsPath)
    = Some (DirectoryListing data)
    ∧ assignNumber this w
      = (Ok (nextNumber (currentTerm_of (JSDate.getFullYear (clock w))) data),
         w).
Proof.
  intros (Hf & (data & Hdata) & _). exists data. split; [done|].
  rewrite (assignNumber_directory this w w data); [done|].
  change repos_getContent with getContent. unfold getContent. rewrite request_healthy by done. by rewrite Hdata.
Qed.

Lemma getRef_healthy (w : World) :
  healthy this w →
  ∃ sha, refs w !! branch_key this (lit "master") = Some sha
         ∧ git_getRef (owner this) (repo this) (lit "heads/master") w
           = (Ok {| ref_name := lit "refs/heads/master"; object_sha := sha |},
              w).
Proof.
  intros (Hf & _ & (sha & Hsha)). exists sha. split; [done|].
  change git_getRef with getRef. unfold getRef.
  rewrite request_healthy by done.
  unfold branch_key in Hsha.
  change (lit "refs/" ++ lit "heads/master")
    with (lit "refs/heads/" ++ lit "master").
  by rewrite Hsha.
Qed.


Lemma addProposal_healthy_fresh (proposal : Proposal) (w : World)
    (data : list ContentEntry) (sha content : JSString) :
  healthy this w →
  contents w !! (upstreamOwner this, upstreamRepo this, proposalsPath)
    = Some (DirectoryListing data) →
  refs w !! branch_key this (lit "master") = Some sha →
  refs w !! branch_key this (branch_of proposal) = None →
  let ep := nextNumber (currentTerm_of (JSDate.getFullYear (clock w))) data in
  @formatFile World _ ep proposal = Ok content →
  addProposal this proposal w
  = (Ok tt, published this proposal ep content sha w).
Proof.
  intros Hh Hdata Hsha Hnone ep Hfmt.
  destruct (assignNumber_healthy w Hh) as (data' & Hdata' & Ha).
  destruct (getRef_healthy w Hh) as (sha' & Hsha' & Hm).
  assert (data' = data) as -> by congruence.
  assert (sha' = sha) as -> by congruence.
  destruct Hh as (Hf & _ & _).
  set (w1 := with_refs (<[branch_key this (branch_of proposal) := sha]>
                          (refs w)) w).
  assert (createBranch this (branch_of proposal) w
          = (Ok (Some {| ref_name := lit "refs/heads/" ++ branch_of proposal;
                         object_sha := sha |}), w1)) as Hb.
  { rewrite (createBranch_after_master this _ w w _ Hm).
    change git_createRef with createRef. unfold createRef.
    rewrite request_healthy by done.
    unfold branch_key in Hnone. by rewrite Hnone. }
  rewrite (addProposal_branch_created this proposal w w w1 _ _ Ha Hb).
  fold ep.
  erewrite Async_bind_Ok; cycle 1.
  { rewrite (createFile_formatted this _ _ _ _ content Hfmt).
    change repos_createOrUpdateFileContents with createOrUpdateFileContents.
    unfold createOrUpdateFileContents.
    rewrite request_healthy by done.
    unfold w1 at 1. cbn [refs with_refs]. unfold branch_key.
    by rewrite lookup_insert_eq. }
  erewrite Async_bind_Ok; cycle 1.
  { unfold openPullRequest. change pulls_create with createPull.
    unfold createPull. by rewrite request_healthy by done. }
  done.
Qed.

End ModelRuns.

Section Title.

Lemma occurs_in_nil (t : JSString) : occurs_in t [] ↔ t = [].
Proof.
  split.
  - intros (before & after & Heq). symmetry in Heq.
    apply app_eq_nil in Heq as [_ Heq]. by apply app_eq_nil in Heq as [? _].
  - intros ->. by exists [], [].
Qed.

Lemma occurs_in_cons (t : JSString) (c : N) (s : JSString) :
  occurs_in t (c :: s) ↔ t `prefix_of` (c :: s) ∨ occurs_in t s.
Proof.
  split.
  - intros ([|b before] & after & Heq).
    + left. by exists after.
    + right. injection Heq as _ ->. by exists before, after.
  - intros [[after ->]|(before & after & ->)].
    + by exists [], after.
    + by exists (c :: before), after.
Qed.

Lemma StringIndexOf_None (s t : JSString) (k : nat) :
  StringIndexOf s t k = None ↔ ¬ occurs_in t s.
Proof.
  revert k. induction s as [|c s IH]; intros k; cbn [StringIndexOf].
  - rewrite occurs_in_nil. destruct t; cbn [startsWith]; split; done.
  - rewrite occurs_in_cons.
    destruct (startsWith (c :: s) t) eqn:Hs.
    + apply startsWith_prefix_of in Hs. split; [done | tauto].
    + rewrite IH. split; [|tauto].
      intros Hno [Hp|Ho]; [|done].
      apply startsWith_prefix_of in Hp. congruence.
Qed.

Lemma replace_absent (s t replaceValue : JSString) :
  ¬ occurs_in t s → replace s t replaceValue = s.
Proof.
  intros Hno. unfold replace.
  by apply (StringIndexOf_None s t 0) in Hno as ->.
Qed.

End Title.

Section Idempotence.
Import Model.


End Idempotence.

(** * The claims *)



(** C2 (general-case sequence assignment).  When the clock gives a term
    [t] other than 6 and the listing request returns the directory
    [data], [assignNumber] returns [t], a dot, and one more than the
    number of names in [data] that start with [t] and a dot. *)
Theorem assignNumber_general {W : Type} `{Runtime W} (this : GitHub)
    (w w' : W) (data : list ContentEntry) (t : Z) :
  currentTerm_of (JSDate.getFullYear (Date_now w)) = t →
  t ≠ 6 →
  repos_getContent (upstreamOwner this) (upstreamRepo this) proposalsPath w
    = (Ok (DirectoryListing data), w') →
  assignNumber this w
  = (Ok (toString t ++ lit "."
           ++ toString (Z.of_nat (count_prefixed (toString t ++ lit ".")
                                    (name <$> data)) + 1)),
     w').
Proof.
  intros <- Ht Hl.
  rewrite (assignNumber_directory this w w' data Hl).
  by rewrite nextNumber_general.
Qed.

Lemma assignNumber_general_witness :
  @assignNumber World Scenario.runtime Scenario.github Scenario.world
  = (Ok (lit "7.3"), Scenario.world).
Proof.
  exact (@assignNumber_general World Scenario.runtime Scenario.github
           Scenario.world Scenario.world Scenario.listing 7
           eq_refl ltac:(lia) eq_refl).
Defined.

(** C3 (historical exception).  In term 6 the ordinal is the number of
    names that start with ["6."] minus 2, and [assignNumber] returns
    ["6."] followed by that ordinal. *)
Theorem assignNumber_term6 {W : Type} `{Runtime W} (this : GitHub)
    (w w' : W) (data : list ContentEntry) :
  currentTerm_of (JSDate.getFullYear (Date_now w)) = 6 →
  repos_getContent (upstreamOwner this) (upstreamRepo this) proposalsPath w
    = (Ok (DirectoryListing data), w') →
  assignNumber this w
  = (Ok (lit "6."
           ++ toString (Z.of_nat (count_prefixed (lit "6.") (name <$> data))
                        - 2)),
     w').
Proof.
  intros Ht Hl.
  rewrite (assignNumber_directory this w w' data Hl), Ht.
  by rewrite nextNumber_term6.
Qed.

Lemma assignNumber_term6_witness :
  @assignNumber World Scenario.runtime Scenario.github Scenario.world_2025
  = (Ok (lit "6.-2"), Scenario.world_2025).
Proof.
  exact (@assignNumber_term6 World Scenario.runtime Scenario.github
           Scenario.world_2025 Scenario.world_2025 Scenario.listing
           eq_refl eq_refl).
Defined.

(** C4 (end-to-end scenario 1).  The proposal with id ["42"], kind
    social, author ["alice.eth"], title ["Fund X"] and body
    ["# Fund X\n\nDetails..."], in a world without faults where the term
    is 7, the listing is [7.1.mdx, 7.2.mdx], master exists and
    [prop/42] does not: the number is ["7.3"]; the text handed to
    prettier is [Scenario.document42], whose heading is
    [# [EP 7.3] Fund X] and whose front matter lists the author
    [alice.eth] and the type ['social']; and when prettier and the
    encoding succeed, [addProposal] returns normally, the ref
    [refs/heads/prop/42] is created at master's sha, the encoded text is
    committed to [src/pages/dao/proposals/7.3.mdx] on that branch, and a
    pull request titled ["Add EP 7.3"] is opened. *)
Theorem end_to_end_scenario (format : JSString → Result JSString)
    (this : GitHub) (w : World) (sha formatted content : JSString) :
  faults w = [] →
  currentTerm_of (JSDate.getFullYear (clock w)) = 7 →
  contents w !! (upstreamOwner this, upstreamRepo this, proposalsPath)
    = Some (DirectoryListing Scenario.listing) →
  refs w !! (owner this, repo this, lit "refs/heads/master") = Some sha →
  refs w !! (owner this, repo this, lit "refs/heads/prop/42") = None →
  format Scenario.document42 = Ok formatted →
  encodeContent formatted = Ok content →
  @assignNumber World (Model.runtime format) this w = (Ok (lit "7.3"), w)
  ∧ wrapMarkdown (lit "7.3") Scenario.proposal42 = Scenario.document42
  ∧ ∃ w',
      @addProposal World (Model.runtime format) this Scenario.proposal42 w
      = (Ok tt, w')
      ∧ refs w'
        = <[(owner this, repo this, lit "refs/heads/prop/42") := sha]> (refs w)
      ∧ commits w'
        = commits w ++
            [{| fc_owner := owner this; fc_repo := repo this;
                fc_path := lit "src/pages/dao/proposals/7.3.mdx";
                fc_message := lit "Add EP 7.3";
                fc_content := content;
                fc_branch := lit "prop/42" |}]
      ∧ pulls w'
        = pulls w ++
            [{| pr_owner := upstreamOwner this; pr_repo := upstreamRepo this;
                pr_body := pullRequestBody;
                pr_title := lit "Add EP 7.3";
                pr_head := owner this ++ lit ":prop/42";
                pr_base := lit "master";
                pr_maintainer_can_modify := true |}].
Proof.
  intros Hf Hterm Hdata Hmaster Hnew Hfmt Henc.
  assert (Model.healthy this w) as Hh.
  { split; [done|]. split; by eexists. }
  destruct (assignNumber_healthy format this w Hh) as (data & Hdata' & Ha).
  assert (data = Scenario.listing) as -> by congruence.
  rewrite Hterm in Ha.
  change (nextNumber 7 Scenario.listing) with (lit "7.3") in Ha.
  split; [done|]. split; [reflexivity|].
  eexists. split.
  - apply (addProposal_healthy_fresh format this Scenario.proposal42 w
             Scenario.listing sha content Hh Hdata Hmaster Hnew).
    rewrite Hterm. unfold formatFile.
    change (wrapMarkdown _ _) with Scenario.document42.
    change prettier_format with format. by rewrite Hfmt.
  - rewrite Hterm. by repeat split.
Qed.

Lemma end_to_end_scenario_witness :
  ∃ w',
    @addProposal World Scenario.runtime Scenario.github Scenario.proposal42
      Scenario.world = (Ok tt, w')
    ∧ map_to_list (refs w')
      = [ (lit "ens-bot", lit "docs", lit "refs/heads/master", lit "4f2a9c1");
          (lit "ens-bot", lit "docs", lit "refs/heads/prop/42", lit "4f2a9c1") ]
    ∧ fc_path <$> commits w' = [lit "src/pages/dao/proposals/7.3.mdx"]
    ∧ pr_title <$> pulls w' = [lit "Add EP 7.3"].
Proof.
  destruct (end_to_end_scenario Scenario.no_formatting Scenario.github
              Scenario.world (lit "4f2a9c1") Scenario.document42
              (base64_encode Scenario.document42)
              eq_refl eq_refl eq_refl eq_refl eq_refl eq_refl eq_refl)
    as (_ & _ & w' & Hrun & Hrefs & Hcommits & Hpulls).
  exists w'. split; [exact Hrun|].
  rewrite Hrefs, Hcommits, Hpulls. repeat split; vm_compute; reflexivity.
Defined.

(** C5 (atomic failure of number assignment).  When the listing request
    throws, or returns something that is not a directory listing,
    [assignNumber] throws (the error of the request, or "Proposals
    directory not found"), [addProposal] throws the same error, and the
    world is the one the listing request left: no further request was
    made, and refs, commits and pull requests are those from before the
    call. *)
Theorem addProposal_listing_failure (format : JSString → Result JSString)
    (this : GitHub) (proposal : Proposal) (w w' : World)
    (response : Result ContentData) :
  Model.getContent (upstreamOwner this) (upstreamRepo this) proposalsPath w
    = (response, w') →
  (∀ data, response ≠ Ok (DirectoryListing data)) →
  let error :=
    match response with
    | Throw e => e
    | Ok _ => GenericError (lit "Proposals directory not found")
    end in
  @assignNumber World (Model.runtime format) this w = (Throw error, w')
  ∧ @addProposal World (Model.runtime format) this proposal w
    = (Throw error, w')
  ∧ refs w' = refs w ∧ commits w' = commits w ∧ pulls w' = pulls w.
Proof.
  intros Hl Hno error.
  assert (@assignNumber World (Model.runtime format) this w
          = (Throw error, w')) as Ha.
  { destruct response as [[data|entry]|e].
    - by destruct (Hno data).
    - by apply (assignNumber_not_directory this w w' entry).
    - by apply (assignNumber_throws this w w' e). }
  split; [done|]. split.
  - by apply addProposal_assign_throws.
  - by apply artifacts_eq, (getContent_artifacts _ _ _ _ _ _ Hl).
Qed.

Lemma addProposal_listing_failure_witness :
  let w := Scenario.with_schedule [Some (ForeignError (lit "fetch failed"))] in
  @addProposal World Scenario.runtime Scenario.github Scenario.proposal42 w
  = (Throw (ForeignError (lit "fetch failed")), Scenario.world).
Proof.
  exact (proj1 (proj2
    (addProposal_listing_failure Scenario.no_formatting Scenario.github
       Scenario.proposal42
       (Scenario.with_schedule [Some (ForeignError (lit "fetch failed"))])
       Scenario.world (Throw (ForeignError (lit "fetch failed")))
       eq_refl ltac:(discriminate)))).
Defined.

(** C6 (title-absent degradation).  When the title is not [null] and
    does not occur in the body, the replacement returns the body as it
    is, the text handed to prettier is the front matter followed by the
    unmodified body (so neither the number nor the identifier, nor the
    metadata table built from them, enters it), and the result of
    [formatFile] is that text formatted and encoded: the same as for a
    proposal without title. *)
Theorem formatFile_title_absent {W : Type} `{Runtime W}
    (ep : JSString) (proposal : Proposal) (t : JSString) :
  title proposal = Some t →
  ¬ occurs_in t (markdown proposal) →
  let document :=
    frontmatter (author proposal) (type_toString (type proposal))
      (markdown proposal) in
  (∀ replaceValue, replace (markdown proposal) t replaceValue
                   = markdown proposal)
  ∧ wrapMarkdown ep proposal = document
  ∧ formatFile ep proposal
    = (formatted ← prettier_format document; encodeContent formatted)
  ∧ formatFile ep proposal
    = formatFile ep {| author := author proposal; id := id proposal;
                       markdown := markdown proposal; title := None;
                       type := type proposal |}.
Proof.
  intros Ht Hno document.
  assert (wrapMarkdown ep proposal = document) as Hwrap.
  { unfold wrapMarkdown. rewrite Ht.
    destruct t as [|c t]; [done|]. by rewrite replace_absent. }
  split; [intros r; by apply replace_absent|].
  split; [done|].
  unfold formatFile. by rewrite Hwrap.
Qed.

Lemma formatFile_title_absent_witness :
  @formatFile World Scenario.runtime (lit "7.3")
    {| author := lit "alice.eth"; id := IdString (lit "42");
       markdown := lit "# Fund Y"; title := Some (lit "Fund X");
       type := social |}
  = Ok (lit "LS0tCmF1dGhvcnM6CiAgLSBhbGljZS5ldGgKcHJvcG9zYWw6CiAgdHlwZTogJ3NvY2lhbCcKLS0tCgojIEZ1bmQgWQ==").
Proof.
  destruct (@formatFile_title_absent World Scenario.runtime (lit "7.3")
    {| author := lit "alice.eth"; id := IdString (lit "42");
       markdown := lit "# Fund Y"; title := Some (lit "Fund X");
       type := social |} (lit "Fund X") eq_refl) as (_ & _ & -> & _).
  - apply StringIndexOf_None with (k := 0%nat). reflexivity.
  - reflexivity.
Defined.

(** C7 (encoding round trip).  For every string of UTF-16 code units:
    if it is well-formed Unicode (every surrogate paired), the encoding
    [btoa(unescape(encodeURIComponent(text)))] succeeds; and whenever the
    encoding succeeds, decoding its result (base64, then UTF-8) gives the
    text back.  In particular the content [formatFile] returns decodes to
    the text prettier produced. *)
Theorem encodeContent_round_trip (text : JSString) :
  is_jsstring text = true →
  (well_formed text = true → ∃ content, encodeContent text = Ok content)
  ∧ (∀ content, encodeContent text = Ok content →
                decodeContent content = Some text)
  ∧ (∀ (W : Type) (R : Runtime W) (ep : JSString) (proposal : Proposal)
       (content : JSString),
       prettier_format (wrapMarkdown ep proposal) = Ok text →
       formatFile ep proposal = Ok content →
       decodeContent content = Some text).
Proof.
  intros Hjs. split; [by apply encodeContent_total|].
  split; [intros content; by apply decodeContent_encodeContent|].
  intros W R ep proposal content Hfmt Hfile.
  unfold formatFile in Hfile. rewrite Hfmt in Hfile.
  by apply decodeContent_encodeContent.
Qed.

(** ["héllo 😀"]: a Latin-1 letter and a surrogate pair. *)
Lemma encodeContent_round_trip_witness :
  encodeContent [104; 233; 108; 108; 111; 32; 55357; 56832]%N
  = Ok (lit "aMOpbGxvIPCfmIA=")
  ∧ decodeContent (lit "aMOpbGxvIPCfmIA=")
    = Some [104; 233; 108; 108; 111; 32; 55357; 56832]%N.
Proof.
  destruct (encodeContent_round_trip
              [104; 233; 108; 108; 111; 32; 55357; 56832]%N eq_refl)
    as (_ & Hdecode & _).
  split; [reflexivity|]. apply Hdecode. reflexivity.
Defined.

(** C9 (term calculation).  The term is the reference term 6 plus the
    number of years since the reference year 2025; it is a total function
    of the time value; it is the term [6 + (y - 2025)] exactly from the
    first millisecond of 1 January of year [y] up to the last one of that
    year; and it never decreases as time advances.  [assignNumber] numbers
    with this term. *)
Theorem term_calculation :
  startingYear = 2025 ∧ startingTerm = 6
  ∧ (∀ now : Z,
       currentTerm_of (JSDate.getFullYear now)
       = startingTerm + (JSDate.getFullYear now - startingYear))
  ∧ (∀ now y : Z,
       currentTerm_of (JSDate.getFullYear now) = 6 + (y - 2025)
       ↔ JSDate.TimeFromYear y <= now < JSDate.TimeFromYear (y + 1))
  ∧ (∀ earlier later : Z,
       earlier <= later →
       currentTerm_of (JSDate.getFullYear earlier)
       <= currentTerm_of (JSDate.getFullYear later))
  ∧ (∀ (W : Type) (R : Runtime W) (this : GitHub) (w w' : W)
       (data : list ContentEntry),
       repos_getContent (upstreamOwner this) (upstreamRepo this)
         proposalsPath w = (Ok (DirectoryListing data), w') →
       assignNumber this w
       = (Ok (nextNumber (6 + (JSDate.getFullYear (Date_now w) - 2025)) data),
          w')).
Proof.
  assert (∀ year, currentTerm_of year = 6 + (year - 2025)) as Hterm.
  { intros year. unfold currentTerm_of, startingYear, startingTerm.
    rewrite Z.div_1_r. lia. }
  split; [done|]. split; [done|]. split.
  { intros now. rewrite Hterm. unfold startingYear, startingTerm. lia. }
  split.
  { intros now y. rewrite Hterm.
    unfold JSDate.getFullYear, JSDate.LocalTime, JSDate.LocalTZA.
    rewrite Z.add_0_r.
    pose proof (YearFromTime_bounds now) as [Hlo Hhi].
    pose proof (YearFromTime_largest now y) as Hy.
    pose proof (YearFromTime_largest now (y + 1)) as Hy1.
    split.
    - intros Heq. assert (JSDate.YearFromTime now = y) as <- by lia. done.
    - intros [Hl Hh]. apply Hy in Hl.
      assert (¬ y + 1 <= JSDate.YearFromTime now) by (rewrite <- Hy1; lia).
      lia. }
  split.
  { intros earlier later Hle. rewrite !Hterm.
    pose proof (getFullYear_mono earlier later Hle). lia. }
  intros W R this w w' data Hl.
  rewrite (assignNumber_directory this w w' data Hl). by rewrite Hterm.
Qed.

Lemma term_calculation_witness :
  currentTerm_of (JSDate.getFullYear 1767225599999) = 6
  ∧ currentTerm_of (JSDate.getFullYear 1767225600000) = 7
  ∧ currentTerm_of (JSDate.getFullYear 1767225599999)
    <= currentTerm_of (JSDate.getFullYear 1767225600000).
Proof.
  destruct term_calculation as (_ & _ & _ & Hyear & Hmono & _).
  split; [|split].
  - apply (proj2 (Hyear 1767225599999 2025)). vm_compute. by split.
  - apply (proj2 (Hyear 1767225600000 2026)). vm_compute. by split.
  - apply Hmono. lia.
Defined.

(** C10 (every RequestError of the ref creation is swallowed).  In every
    runtime: when the number is assigned, the master ref is read, and
    the ref creation throws a RequestError of any status and message,
    [createBranch] logs the message and returns [null], and
    [addProposal] returns normally in the world [createBranch] left: no
    file is committed, no pull request is opened, nothing is thrown. *)
Theorem createBranch_swallows_RequestError {W : Type} `{Runtime W}
    (this : GitHub) (proposal : Proposal) (w w1 w2 w3 : W)
    (ep : JSString) (mainBranch : RefResponse)
    (status : Z) (message : JSString) :
  assignNumber this w = (Ok ep, w1) →
  git_getRef (owner this) (repo this) (lit "heads/master") w1
    = (Ok mainBranch, w2) →
  git_createRef (owner this) (repo this)
    (lit "refs/heads/" ++ branch_of proposal) (object_sha mainBranch) w2
    = (Throw (RequestError status message), w3) →
  createBranch this (branch_of proposal) w1
    = (Ok None, console_error message w3)
  ∧ addProposal this proposal w = (Ok tt, console_error message w3).
Proof.
  intros Ha Hm Hc.
  assert (createBranch this (branch_of proposal) w1
          = (Ok None, console_error message w3)) as Hb.
  { rewrite (createBranch_after_master this _ w1 w2 mainBranch Hm).
    by rewrite Hc. }
  split; [done|].
  by apply (addProposal_branch_null this proposal w w1 _ ep).
Qed.

(** An authentication failure on a branch that does not exist. *)
Lemma createBranch_swallows_RequestError_witness :
  let w := Scenario.with_schedule
             [None; None; Some (RequestError 401 (lit "Bad credentials"))] in
  @addProposal World Scenario.runtime Scenario.github Scenario.proposal42 w
  = (Ok tt,
     Model.with_console [ErrorLine (lit "Bad credentials")] Scenario.world).
Proof.
  exact (proj2
    (@createBranch_swallows_RequestError World Scenario.runtime
       Scenario.github Scenario.proposal42
       (Scenario.with_schedule
          [None; None; Some (RequestError 401 (lit "Bad credentials"))])
       (Scenario.with_schedule
          [None; Some (RequestError 401 (lit "Bad credentials"))])
       (Scenario.with_schedule
          [Some (RequestError 401 (lit "Bad credentials"))])
       Scenario.world
       (lit "7.3")
       {| ref_name := lit "refs/heads/master"; object_sha := lit "4f2a9c1" |}
       401 (lit "Bad credentials") eq_refl eq_refl eq_refl)).
Defined.

(** * Further properties of the code *)

(** ** The constructor *)


Lemma constructor_fields (env : Env) (this : GitHub) :
  constructor env = Ok this →
  GITHUB_REPO_OWNER env = Some (owner this)
  ∧ GITHUB_REPO_NAME env = Some (repo this)
  ∧ (upstreamOwner this, upstreamRepo this)
    = if IS_DEV env then (owner this, repo this)
      else (lit "ensdomains", lit "docs").
Proof.
  unfold constructor.
  destruct (GITHUB_TOKEN env) as [[|c1 token]|];
    destruct (GITHUB_REPO_OWNER env) as [[|c2 o]|];
    destruct (GITHUB_REPO_NAME env) as [[|c3 r]|]; try discriminate.
  cbn. destruct (IS_DEV env); by intros [= <-].
Qed.

Section ModelEffects.
Import Model.
Variable format : JSString → Result JSString.
#[local] Hint Extern 0 (Runtime World) =>
  exact (runtime format) : typeclass_instances.
Variable this : GitHub.

Lemma getRef_Ok (o r ref : JSString) (w w' : World) (response : RefResponse) :
  getRef o r ref w = (Ok response, w') →
  refs w !! (o, r, lit "refs/" ++ ref) = Some (object_sha response)
  ∧ artifacts w' = artifacts w.
Proof.
  intros Hg. pose proof (getRef_artifacts _ _ _ _ _ _ Hg) as Ha.
  split; [|done].
  apply request_cases in Hg as [(e & ? & _)|(w0 & Ha0 & _ & Hg)]; [done|].
  apply artifacts_eq in Ha0 as (Hr & _ & _). rewrite <- Hr.
  cbv beta in Hg. destruct (refs w0 !! _) eqn:Hl; by simplify_eq.
Qed.

(** What [createBranch] does to the repositories, with the sha made
    explicit. *)
Lemma createBranch_effect (branch : JSString) (w w' : World)
    (r : Result (option RefResponse)) :
  createBranch this branch w = (r, w') →
  ((∀ created, r ≠ Ok (Some created)) ∧ artifacts w' = artifacts w)
  ∨ (∃ created sha, r = Ok (Some created)
       ∧ refs w !! branch_key this (lit "master") = Some sha
       ∧ refs w !! branch_key this branch = None
       ∧ refs w' = <[branch_key this branch := sha]> (refs w)
       ∧ commits w' = commits w ∧ pulls w' = pulls w).
Proof.
  destruct (git_getRef (owner this) (repo this) (lit "heads/master") w)
    as [[mainBranch|e] w1] eqn:Hm.
  2:{ rewrite (createBranch_master_throws this branch w w1 e Hm).
      intros [= <- <-]. left. split; [done|].
      by apply (getRef_artifacts _ _ _ _ _ _ Hm). }
  rewrite (createBranch_after_master this branch w w1 mainBranch Hm).
  apply getRef_Ok in Hm as [Hsha Ha1].
  change (git_createRef (owner this) (repo this)) with
    (createRef (owner this) (repo this)).
  destruct (createRef _ _ _ _ w1) as [res w2] eqn:Hc.
  apply artifacts_eq in Ha1 as (Hr1 & Hc1 & Hp1).
  apply createRef_cases in Hc
    as [(e & -> & Ha2)|(created & -> & Hnone & Hr2 & Hc2 & Hp2)].
  - apply artifacts_eq in Ha2 as (Hr2 & Hc2 & Hp2).
    left. destruct e; simplify_eq; (split; [done|]);
      apply artifacts_eq; cbn; by rewrite ?Hr2, ?Hc2, ?Hp2.
  - intros [= <- <-]. right. exists created, (object_sha mainBranch).
    unfold branch_key.
    change (lit "refs/heads/" ++ lit "master")
      with (lit "refs/" ++ lit "heads/master").
    rewrite <- Hr1, <- Hc1, <- Hp1. repeat split; congruence.
Qed.

(** What the steps after a fresh branch do, with the commit and the pull
    request made explicit. *)
Lemma publish_effect (branch ep : JSString) (proposal : Proposal)
    (w w' : World) (r : Result unit) :
  (_ ← createFile this branch ep proposal;
   pr ← openPullRequest this branch ep;
   log_to_console (lit "Created PR " ++ html_url pr)) w = (r, w') →
  refs w' = refs w
  ∧ ((∃ e, r = Throw e ∧ commits w' = commits w ∧ pulls w' = pulls w)
     ∨ (∃ content,
          @formatFile World _ ep proposal = Ok content
          ∧ commits w' = commits w ++ [commit_record this branch ep content]
          ∧ ((∃ e, r = Throw e ∧ pulls w' = pulls w)
             ∨ (r = Ok tt
                ∧ pulls w' = pulls w ++ [pull_record this branch ep])))).
Proof.
  unfold commit_record, pull_record.
  destruct (createFile this branch ep proposal w) as [res w1] eqn:Hf.
  destruct (@formatFile World _ ep proposal) as [content|e] eqn:Hfmt.
  2:{ rewrite (createFile_unformatted this _ _ _ _ e Hfmt) in Hf.
      simplify_eq. rewrite (Async_bind_Throw _ _ _ _ _ (createFile_unformatted
        this branch ep proposal w1 e Hfmt)).
      intros [= <- <-]. split; [done|]. left. by exists e. }
  pose proof Hf as Hf'.
  rewrite (createFile_formatted this _ _ _ _ content Hfmt) in Hf'.
  apply createFile_cases in Hf' as [(e & -> & Ha)|(-> & Hr1 & Hp1 & Hc1)].
  { rewrite (Async_bind_Throw _ _ _ _ _ Hf). intros [= <- <-].
    apply artifacts_eq in Ha as (? & ? & ?).
    split; [done|]. left. by exists e. }
  rewrite (Async_bind_Ok _ _ _ _ _ Hf).
  destruct (openPullRequest this branch ep w1) as [res w2] eqn:Hp.
  pose proof Hp as Hp'. unfold openPullRequest in Hp'.
  apply createPull_cases in Hp'
    as [(e & -> & Ha)|(pr & -> & Hr2 & Hc2 & Hp2)].
  { rewrite (Async_bind_Throw _ _ _ _ _ Hp). intros [= <- <-].
    apply artifacts_eq in Ha as (? & ? & ?).
    split; [congruence|]. right. exists content.
    split; [done|]. split; [congruence|]. left. exists e. split; congruence. }
  rewrite (Async_bind_Ok _ _ _ _ _ Hp). intros [= <- <-].
  change (console_log ?m w2) with (with_console (console w2 ++ [LogLine m]) w2).
  cbn [refs commits pulls with_console].
  split; [congruence|]. right. exists content.
  split; [done|]. split; [congruence|]. right. split; [done|].
  rewrite Hp2, Hp1. done.
Qed.

(** One call of [addProposal], in full: either the repositories are as
    before, or the branch of the proposal was new and now points at
    master's sha, followed by at most the commit and then at most the
    pull request for the assigned number. *)
Lemma addProposal_effect (proposal : Proposal) (w w' : World)
    (r : Result unit) :
  addProposal this proposal w = (r, w') →
  artifacts w' = artifacts w
  ∨ (∃ ep sha w1,
       assignNumber this w = (Ok ep, w1)
       ∧ refs w !! branch_key this (lit "master") = Some sha
       ∧ refs w !! branch_key this (branch_of proposal) = None
       ∧ refs w'
         = <[branch_key this (branch_of proposal) := sha]> (refs w)
       ∧ ((∃ e, r = Throw e ∧ commits w' = commits w ∧ pulls w' = pulls w)
          ∨ (∃ content,
               @formatFile World _ ep proposal = Ok content
               ∧ commits w'
                 = commits w
                     ++ [commit_record this (branch_of proposal) ep content]
               ∧ ((∃ e, r = Throw e ∧ pulls w' = pulls w)
                  ∨ (r = Ok tt
                     ∧ pulls w'
                       = pulls w
                           ++ [pull_record this (branch_of proposal) ep]))))).
Proof.
  destruct (assignNumber this w) as [[ep|e] w1] eqn:Ha;
    pose proof (assignNumber_artifacts _ _ _ _ _ Ha) as Ha1.
  2:{ rewrite (addProposal_assign_throws this proposal w w1 e Ha).
      intros [= <- <-]. by left. }
  apply artifacts_eq in Ha1 as (Hr1 & Hc1 & Hp1).
  destruct (createBranch this (branch_of proposal) w1)
    as [[[created|]|e] w2] eqn:Hb;
    pose proof (createBranch_effect _ _ _ _ Hb) as Hb'.
  - rewrite (addProposal_branch_created this proposal w w1 w2 ep created Ha Hb).
    destruct Hb' as [[Hno _]|(c' & sha & _ & Hm & Hnone & Hr2 & Hc2 & Hp2)];
      [by destruct (Hno created)|].
    intros Hpub. apply publish_effect in Hpub as [Hr3 Hpub].
    right. exists ep, sha, w1. rewrite <- Hr1, <- Hc1, <- Hp1.
    split; [done|]. split; [done|]. split; [done|].
    split; [congruence|].
    destruct Hpub as [(e & ? & ? & ?)|(content & ? & ? & Hpull)].
    + left. exists e. repeat split; congruence.
    + right. exists content. split; [done|]. split; [congruence|].
      destruct Hpull as [(e & ? & ?)|(? & ?)].
      * left. exists e. split; congruence.
      * right. split; congruence.
  - rewrite (addProposal_branch_null this proposal w w1 w2 ep Ha Hb).
    intros [= <- <-]. left.
    destruct Hb' as [[_ Ha2]|(c & sha & ? & _)]; [|done].
    apply artifacts_eq in Ha2 as (? & ? & ?).
    apply artifacts_eq. repeat split; congruence.
  - rewrite (addProposal_branch_throws this proposal w w1 w2 ep e Ha Hb).
    intros [= <- <-]. left.
    destruct Hb' as [[_ Ha2]|(c & sha & ? & _)]; [|done].
    apply artifacts_eq in Ha2 as (? & ? & ?).
    apply artifacts_eq. repeat split; congruence.
Qed.

End ModelEffects.

(** ** What a call leaves in the repositories *)

(** Whatever happens during a call of [addProposal], no ref is removed
    or moved, and the commits and pull requests that were there remain,
    in order, at the front of the logs. *)
Theorem addProposal_only_adds (format : JSString → Result JSString)
    (this : GitHub) (proposal : Proposal) (w w' : World) (r : Result unit) :
  @addProposal World (Model.runtime format) this proposal w = (r, w') →
  refs w ⊆ refs w'
  ∧ commits w `prefix_of` commits w'
  ∧ pulls w `prefix_of` pulls w'.
Proof.
  intros Hrun. apply addProposal_effect in Hrun
    as [Ha|(ep & sha & w1 & _ & _ & Hnew & -> & Hrest)].
  { apply artifacts_eq in Ha as (-> & -> & ->). done. }
  split; [by apply insert_subseteq|].
  destruct Hrest as [(e & _ & -> & ->)|(content & _ & -> & Hpull)]; [done|].
  split; [by apply prefix_app_r|].
  destruct Hpull as [(e & _ & ->)|(_ & ->)]; [done | by apply prefix_app_r].
Qed.

Lemma addProposal_only_adds_witness :
  let w' := (@addProposal World Scenario.runtime Scenario.github
               Scenario.proposal42 Scenario.world).2 in
  refs Scenario.world ⊆ refs w'
  ∧ commits Scenario.world `prefix_of` commits w'
  ∧ pulls Scenario.world `prefix_of` pulls w'.
Proof.
  intros w'.
  exact (addProposal_only_adds Scenario.no_formatting Scenario.github
           Scenario.proposal42 Scenario.world w' _
           (surjective_pairing _)).
Defined.

(** A pull request is opened only by a call that returns normally and
    that, in the same call, created the branch [prop/id] at master's sha
    and committed the file: the commit is on that branch, at
    [src/pages/dao/proposals/ep.mdx], with the message that is also the
    title of the pull request, for the number [ep] that [assignNumber]
    returned; the pull request goes from [owner:prop/id] to master of the
    upstream repository. *)
Theorem pull_request_after_commit (format : JSString → Result JSString)
    (this : GitHub) (proposal : Proposal) (w w' : World) (r : Result unit) :
  @addProposal World (Model.runtime format) this proposal w = (r, w') →
  pulls w' ≠ pulls w →
  ∃ ep sha content w1,
    r = Ok tt
    ∧ @assignNumber World (Model.runtime format) this w = (Ok ep, w1)
    ∧ refs w !! Model.branch_key this (branch_of proposal) = None
    ∧ refs w !! Model.branch_key this (lit "master") = Some sha
    ∧ refs w' !! Model.branch_key this (branch_of proposal) = Some sha
    ∧ commits w'
      = commits w ++
          [{| fc_owner := owner this; fc_repo := repo this;
              fc_path := lit "src/pages/dao/proposals/" ++ ep ++ lit ".mdx";
              fc_message := lit "Add EP " ++ ep;
              fc_content := content;
              fc_branch := branch_of proposal |}]
    ∧ pulls w'
      = pulls w ++
          [{| pr_owner := upstreamOwner this; pr_repo := upstreamRepo this;
              pr_body := pullRequestBody;
              pr_title := lit "Add EP " ++ ep;
              pr_head := owner this ++ lit ":" ++ branch_of proposal;
              pr_base := lit "master";
              pr_maintainer_can_modify := true |}].
Proof.
  intros Hrun Hchanged. apply addProposal_effect in Hrun
    as [Ha|(ep & sha & w1 & Hassign & Hmaster & Hnew & Hrefs & Hrest)].
  { apply artifacts_eq in Ha as (_ & _ & ?). done. }
  destruct Hrest as [(e & _ & _ & ?)|(content & _ & Hc & Hpull)]; [done|].
  destruct Hpull as [(e & _ & ?)|(-> & Hp)]; [done|].
  exists ep, sha, content, w1. repeat split; try done.
  rewrite Hrefs. apply lookup_insert_eq.
Qed.

Lemma pull_request_after_commit_witness :
  let run := @addProposal World Scenario.runtime Scenario.github
               Scenario.proposal42 Scenario.world in
  run.1 = Ok tt
  ∧ fc_message <$> commits run.2 = pr_title <$> pulls run.2.
Proof.
  intros run.
  destruct (pull_request_after_commit Scenario.no_formatting Scenario.github
              Scenario.proposal42 Scenario.world run.2 run.1
              (surjective_pairing _))
    as (ep & sha & content & w1 & Hr & _ & _ & _ & _ & Hc & Hp).
  - intros Heq. apply (f_equal length) in Heq. vm_compute in Heq.
    discriminate.
  - split; [exact Hr|]. rewrite Hc, Hp. reflexivity.
Defined.

(** The committed content is the text prettier returned: when a call
    adds a commit, prettier succeeded on the wrapped markdown for the
    assigned number, and the content of the commit decodes (base64, then
    UTF-8) to prettier's output. *)
Theorem committed_content_decodes (format : JSString → Result JSString)
    (this : GitHub) (proposal : Proposal) (w w' : World) (r : Result unit) :
  (∀ ep w1 formatted,
     @assignNumber World (Model.runtime format) this w = (Ok ep, w1) →
     format (wrapMarkdown ep proposal) = Ok formatted →
     is_jsstring formatted = true) →
  @addProposal World (Model.runtime format) this proposal w = (r, w') →
  commits w' ≠ commits w →
  ∃ ep formatted c w1,
    @assignNumber World (Model.runtime format) this w = (Ok ep, w1)
    ∧ format (wrapMarkdown ep proposal) = Ok formatted
    ∧ commits w' = commits w ++ [c]
    ∧ fc_path c = lit "src/pages/dao/proposals/" ++ ep ++ lit ".mdx"
    ∧ decodeContent (fc_content c) = Some formatted.
Proof.
  intros Hjs Hrun Hchanged. apply addProposal_effect in Hrun
    as [Ha|(ep & sha & w1 & Hassign & _ & _ & _ & Hrest)].
  { apply artifacts_eq in Ha as (_ & ? & _). done. }
  destruct Hrest as [(e & _ & ? & _)|(content & Hfmt & Hc & _)]; [done|].
  unfold formatFile in Hfmt.
  change prettier_format with format in Hfmt.
  destruct (format (wrapMarkdown ep proposal)) as [formatted|e] eqn:Hf;
    [|discriminate].
  exists ep, formatted, (commit_record this (branch_of proposal) ep content), w1.
  repeat split; try done.
  apply decodeContent_encodeContent; [by eapply (Hjs ep w1) | done].
Qed.

Lemma committed_content_decodes_witness :
  let run := @addProposal World Scenario.runtime Scenario.github
               Scenario.proposal42 Scenario.world in
  decodeContent <$> (fc_content <$> commits run.2)
  = [Some Scenario.document42].
Proof.
  intros run.
  destruct (committed_content_decodes Scenario.no_formatting Scenario.github
              Scenario.proposal42 Scenario.world run.2 run.1)
    as (ep & formatted & c & w1 & Ha & Hf & Hc & _ & Hd).
  - intros ep w1 formatted Ha [= <-].
    apply (f_equal fst) in Ha. vm_compute in Ha. injection Ha as <-.
    reflexivity.
  - apply surjective_pairing.
  - intros Heq. apply (f_equal length) in Heq. vm_compute in Heq.
    discriminate.
  - rewrite Hc. change (commits Scenario.world) with (@nil FileCommit).
    cbn [fmap list_fmap app]. rewrite Hd.
    apply (f_equal fst) in Ha. vm_compute in Ha. injection Ha as <-.
    injection Hf as <-. reflexivity.
Defined.

(** ** Where pull requests go *)

(** With an object built by the constructor, every pull request a call
    opens has its head in the configured repository, on the branch of
    the proposal, and targets master of [ensdomains/docs], or of the
    configured repository itself in dev mode; the listing is read from
    that same target. *)
Theorem pull_request_target (format : JSString → Result JSString)
    (env : Env) (this : GitHub) (proposal : Proposal) (w w' : World)
    (r : Result unit) (fork_owner fork_repo : JSString) :
  constructor env = Ok this →
  GITHUB_REPO_OWNER env = Some fork_owner →
  GITHUB_REPO_NAME env = Some fork_repo →
  @addProposal World (Model.runtime format) this proposal w = (r, w') →
  ∀ pr, pr ∈ pulls w' → pr ∉ pulls w →
    (pr_owner pr, pr_repo pr)
      = (if IS_DEV env then (fork_owner, fork_repo)
         else (lit "ensdomains", lit "docs"))
    ∧ pr_head pr = fork_owner ++ lit ":prop/" ++ id_toString (id proposal)
    ∧ pr_base pr = lit "master".
Proof.
  intros Hnew Ho Hr Hrun pr Hin Hout.
  apply constructor_fields in Hnew as (Ho' & Hr' & Hup).
  assert (owner this = fork_owner) as Hfo by congruence.
  assert (repo this = fork_repo) as Hfr by congruence.
  apply addProposal_effect in Hrun
    as [Ha|(ep & sha & w1 & _ & _ & _ & _ & Hrest)].
  { apply artifacts_eq in Ha as (_ & _ & Hp). by rewrite Hp in Hin. }
  destruct Hrest as [(e & _ & _ & Hp)|(content & _ & _ & Hpull)];
    [by rewrite Hp in Hin|].
  destruct Hpull as [(e & _ & Hp)|(_ & Hp)]; [by rewrite Hp in Hin|].
  rewrite Hp in Hin. apply elem_of_app in Hin as [?|Hin]; [done|].
  apply list_elem_of_singleton in Hin as ->.
  unfold pull_record, branch_of. cbn [pr_owner pr_repo pr_head pr_base].
  rewrite <- Hfo, <- Hfr.
  split; [by destruct (IS_DEV env); injection Hup as -> ->|].
  split; reflexivity.
Qed.

Lemma pull_request_target_witness :
  let pr := pull_record DevScenario.github (lit "prop/42") (lit "7.3") in
  (pr_owner pr, pr_repo pr) = (lit "ens-bot", lit "docs")
  ∧ pr_head pr = lit "ens-bot" ++ lit ":prop/" ++ lit "42"
  ∧ pr_base pr = lit "master".
Proof.
  intros pr.
  apply (pull_request_target Scenario.no_formatting DevScenario.env
           DevScenario.github Scenario.proposal42 DevScenario.world
           (@addProposal World Scenario.runtime DevScenario.github
              Scenario.proposal42 DevScenario.world).2
           (@addProposal World Scenario.runtime DevScenario.github
              Scenario.proposal42 DevScenario.world).1
           (lit "ens-bot") (lit "docs") eq_refl eq_refl eq_refl
           (surjective_pairing _) pr).
  - apply list_elem_of_singleton. reflexivity.
  - apply not_elem_of_nil.
Defined.

(** ** Failures after the number has been assigned *)

(** The master ref is read outside the [try]: whatever [getRef] throws,
    a RequestError included, leaves [createBranch] and [addProposal] as
    it is, without a word on the console. *)
Theorem getRef_error_propagates {W : Type} `{Runtime W}
    (this : GitHub) (proposal : Proposal) (w w1 w2 : W)
    (ep : JSString) (e : Exn) :
  assignNumber this w = (Ok ep, w1) →
  git_getRef (owner this) (repo this) (lit "heads/master") w1
    = (Throw e, w2) →
  createBranch this (branch_of proposal) w1 = (Throw e, w2)
  ∧ addProposal this proposal w = (Throw e, w2).
Proof.
  intros Ha Hm.
  pose proof (createBranch_master_throws this (branch_of proposal) w1 w2 e Hm)
    as Hb.
  split; [done|]. by apply (addProposal_branch_throws this proposal w w1 w2 ep).
Qed.

(** A missing master branch (status 404) is such a case. *)
Lemma getRef_error_propagates_witness :
  let w := Model.with_refs ∅ Scenario.world in
  @addProposal World Scenario.runtime Scenario.github Scenario.proposal42 w
  = (Throw (RequestError 404 (lit "Not Found")), w).
Proof.
  exact (proj2
    (@getRef_error_propagates World Scenario.runtime Scenario.github
       Scenario.proposal42 (Model.with_refs ∅ Scenario.world)
       (Model.with_refs ∅ Scenario.world) (Model.with_refs ∅ Scenario.world)
       (lit "7.3") (RequestError 404 (lit "Not Found")) eq_refl eq_refl)).
Defined.

(** An error of the ref creation that is not a RequestError is thrown
    again: [createBranch] and [addProposal] fail with it in the world the
    request left, and nothing is written to the console. *)
Theorem createRef_other_error_rethrown {W : Type} `{Runtime W}
    (this : GitHub) (proposal : Proposal) (w w1 w2 w3 : W)
    (ep : JSString) (mainBranch : RefResponse) (e : Exn) :
  assignNumber this w = (Ok ep, w1) →
  git_getRef (owner this) (repo this) (lit "heads/master") w1
    = (Ok mainBranch, w2) →
  git_createRef (owner this) (repo this)
    (lit "refs/heads/" ++ branch_of proposal) (object_sha mainBranch) w2
    = (Throw e, w3) →
  instanceof_RequestError e = false →
  createBranch this (branch_of proposal) w1 = (Throw e, w3)
  ∧ addProposal this proposal w = (Throw e, w3).
Proof.
  intros Ha Hm Hc Hnot.
  assert (createBranch this (branch_of proposal) w1 = (Throw e, w3)) as Hb.
  { rewrite (createBranch_after_master this _ w1 w2 mainBranch Hm), Hc.
    by destruct e. }
  split; [done|]. by apply (addProposal_branch_throws this proposal w w1 w3 ep).
Qed.

Lemma createRef_other_error_rethrown_witness :
  let w := Scenario.with_schedule
             [None; None; Some (ForeignError (lit "fetch failed"))] in
  @addProposal World Scenario.runtime Scenario.github Scenario.proposal42 w
  = (Throw (ForeignError (lit "fetch failed")), Scenario.world).
Proof.
  exact (proj2
    (@createRef_other_error_rethrown World Scenario.runtime Scenario.github
       Scenario.proposal42
       (Scenario.with_schedule
          [None; None; Some (ForeignError (lit "fetch failed"))])
       (Scenario.with_schedule [None; Some (ForeignError (lit "fetch failed"))])
       (Scenario.with_schedule [Some (ForeignError (lit "fetch failed"))])
       Scenario.world (lit "7.3")
       {| ref_name := lit "refs/heads/master"; object_sha := lit "4f2a9c1" |}
       (ForeignError (lit "fetch failed")) eq_refl eq_refl eq_refl eq_refl)).
Defined.

(** When the content request throws after the branch was created, the
    error leaves [addProposal] in the world that request left: no pull
    request is asked for and nothing is logged. *)
Theorem commit_error_propagates {W : Type} `{Runtime W}
    (this : GitHub) (proposal : Proposal) (w w1 w2 w3 : W)
    (ep content : JSString) (created : RefResponse) (e : Exn) :
  assignNumber this w = (Ok ep, w1) →
  createBranch this (branch_of proposal) w1 = (Ok (Some created), w2) →
  formatFile ep proposal = Ok content →
  repos_createOrUpdateFileContents (owner this) (repo this)
    (lit "src/pages/dao/proposals/" ++ ep ++ lit ".mdx")
    (lit "Add EP " ++ ep) content (branch_of proposal) w2
    = (Throw e, w3) →
  addProposal this proposal w = (Throw e, w3).
Proof.
  intros Ha Hb Hfmt Hc.
  rewrite (addProposal_branch_created this proposal w w1 w2 ep created Ha Hb).
  apply Async_bind_Throw.
  by rewrite (createFile_formatted this _ _ _ _ content Hfmt).
Qed.

(** When the pull-request request throws after the commit, the error
    leaves [addProposal] in the world that request left, and the
    "Created PR" line is not logged. *)
Theorem pull_error_propagates {W : Type} `{Runtime W}
    (this : GitHub) (proposal : Proposal) (w w1 w2 w3 w4 : W)
    (ep content : JSString) (created : RefResponse) (e : Exn) :
  assignNumber this w = (Ok ep, w1) →
  createBranch this (branch_of proposal) w1 = (Ok (Some created), w2) →
  formatFile ep proposal = Ok content →
  repos_createOrUpdateFileContents (owner this) (repo this)
    (lit "src/pages/dao/proposals/" ++ ep ++ lit ".mdx")
    (lit "Add EP " ++ ep) content (branch_of proposal) w2
    = (Ok tt, w3) →
  pulls_create (upstreamOwner this) (upstreamRepo this) pullRequestBody
    (lit "Add EP " ++ ep) (owner this ++ lit ":" ++ branch_of proposal)
    (lit "master") true w3
    = (Throw e, w4) →
  addProposal this proposal w = (Throw e, w4).
Proof.
  intros Ha Hb Hfmt Hc Hp.
  rewrite (addProposal_branch_created this proposal w w1 w2 ep created Ha Hb).
  erewrite Async_bind_Ok;
    [|by rewrite (createFile_formatted this _ _ _ _ content Hfmt)].
  by apply Async_bind_Throw.
Qed.

Lemma commit_error_propagates_witness :
  let w := Scenario.with_schedule
             [None; None; None; Some (RequestError 409 (lit "Conflict"))] in
  @addProposal World Scenario.runtime Scenario.github Scenario.proposal42 w
  = (Throw (RequestError 409 (lit "Conflict")),
     Model.with_refs
       (<[(lit "ens-bot", lit "docs", lit "refs/heads/prop/42")
          := lit "4f2a9c1"]> (refs Scenario.world)) Scenario.world).
Proof.
  exact (@commit_error_propagates World Scenario.runtime Scenario.github
           Scenario.proposal42
           (Scenario.with_schedule
              [None; None; None; Some (RequestError 409 (lit "Conflict"))])
           (Scenario.with_schedule
              [None; None; Some (RequestError 409 (lit "Conflict"))])
           (Model.with_refs
              (<[(lit "ens-bot", lit "docs", lit "refs/heads/prop/42")
                 := lit "4f2a9c1"]> (refs Scenario.world))
              (Scenario.with_schedule
                 [Some (RequestError 409 (lit "Conflict"))]))
           _ (lit "7.3") (base64_encode Scenario.document42)
           {| ref_name := lit "refs/heads/prop/42";
              object_sha := lit "4f2a9c1" |}
           (RequestError 409 (lit "Conflict"))
           eq_refl eq_refl eq_refl eq_refl).
Defined.

Lemma pull_error_propagates_witness :
  let w := Scenario.with_schedule
             [None; None; None; None;
              Some (RequestError 403 (lit "Forbidden"))] in
  (@addProposal World Scenario.runtime Scenario.github Scenario.proposal42 w).1
  = Throw (RequestError 403 (lit "Forbidden")).
Proof.
  intros w.
  set (branched := Model.with_refs
         (<[(lit "ens-bot", lit "docs", lit "refs/heads/prop/42")
            := lit "4f2a9c1"]> (refs Scenario.world))).
  set (committed := Model.with_commits
         [commit_record Scenario.github (lit "prop/42") (lit "7.3")
            (base64_encode Scenario.document42)]).
  exact (f_equal fst
    (@pull_error_propagates World Scenario.runtime Scenario.github
       Scenario.proposal42 w
       (Scenario.with_schedule
          [None; None; None; Some (RequestError 403 (lit "Forbidden"))])
       (branched (Scenario.with_schedule
          [None; Some (RequestError 403 (lit "Forbidden"))]))
       (committed (branched (Scenario.with_schedule
          [Some (RequestError 403 (lit "Forbidden"))])))
       (committed (branched Scenario.world))
       (lit "7.3") (base64_encode Scenario.document42)
       {| ref_name := lit "refs/heads/prop/42";
          object_sha := lit "4f2a9c1" |}
       (RequestError 403 (lit "Forbidden"))
       eq_refl eq_refl eq_refl eq_refl eq_refl)).
Defined.

(** When rendering fails (prettier throws, or the encoding does), the
    branch has already been created: [addProposal] throws in the world
    [createBranch] left, and no content request is made. *)
Theorem render_error_after_branch {W : Type} `{Runtime W}
    (this : GitHub) (proposal : Proposal) (w w1 w2 : W)
    (ep : JSString) (created : RefResponse) (e : Exn) :
  assignNumber this w = (Ok ep, w1) →
  createBranch this (branch_of proposal) w1 = (Ok (Some created), w2) →
  formatFile ep proposal = Throw e →
  addProposal this proposal w = (Throw e, w2).
Proof.
  intros Ha Hb Hfmt.
  rewrite (addProposal_branch_created this proposal w w1 w2 ep created Ha Hb).
  apply Async_bind_Throw. by apply createFile_unformatted.
Qed.

(** A body with an unpaired surrogate: the branch is created, then the
    encoding throws. *)
Lemma render_error_after_branch_witness :
  @addProposal World Scenario.runtime Scenario.github
    {| author := lit "alice.eth"; id := IdString (lit "42");
       markdown := [55357%N]; title := None; type := social |}
    Scenario.world
  = (Throw (URIError (lit "URI malformed")),
     Model.with_refs
       (<[(lit "ens-bot", lit "docs", lit "refs/heads/prop/42")
          := lit "4f2a9c1"]> (refs Scenario.world)) Scenario.world).
Proof.
  exact (@render_error_after_branch World Scenario.runtime Scenario.github
           {| author := lit "alice.eth"; id := IdString (lit "42");
              markdown := [55357%N]; title := None; type := social |}
           Scenario.world Scenario.world _ (lit "7.3")
           {| ref_name := lit "refs/heads/prop/42";
              object_sha := lit "4f2a9c1" |}
           (URIError (lit "URI malformed")) eq_refl eq_refl eq_refl).
Defined.

(** A publication that broke off is never resumed: when a call has
    created the branch and then thrown, no pull request was opened, and
    every later call for the same id, whatever else happens, leaves
    refs, commits and pull requests as that call left them. *)
Theorem partial_publication_is_final (format : JSString → Result JSString)
    (this : GitHub) (p1 p2 : Proposal) (w w1 w2 : World)
    (e : Exn) (r2 : Result unit) :
  id p1 = id p2 →
  @addProposal World (Model.runtime format) this p1 w = (Throw e, w1) →
  refs w1 ≠ refs w →
  @addProposal World (Model.runtime format) this p2 w1 = (r2, w2) →
  pulls w1 = pulls w
  ∧ refs w2 = refs w1 ∧ commits w2 = commits w1 ∧ pulls w2 = pulls w1.
Proof.
  intros Hid H1 Hchanged H2.
  apply addProposal_effect in H1
    as [Ha|(ep & sha & w' & _ & _ & _ & Hrefs & Hrest)].
  { apply artifacts_eq in Ha as (? & _). done. }
  assert (pulls w1 = pulls w) as Hp.
  { destruct Hrest as [(? & _ & _ & ?)|(? & _ & _ & [(? & _ & ?)|(? & _)])];
      done. }
  split; [done|]. apply artifacts_eq.
  apply (addProposal_branch_exists format this p2 w1 w2 r2); [|done].
  unfold branch_of. rewrite <- Hid. fold (branch_of p1).
  rewrite Hrefs, lookup_insert_eq. by eexists.
Qed.

Lemma partial_publication_is_final_witness :
  let broken := Model.with_refs
       (<[(lit "ens-bot", lit "docs", lit "refs/heads/prop/42")
          := lit "4f2a9c1"]> (refs Scenario.world)) Scenario.world in
  let retry := @addProposal World Scenario.runtime Scenario.github
                 Scenario.proposal42 broken in
  commits retry.2 = [] ∧ pulls retry.2 = [].
Proof.
  intros broken retry.
  destruct (partial_publication_is_final Scenario.no_formatting
              Scenario.github Scenario.proposal42 Scenario.proposal42
              (Scenario.with_schedule
                 [None; None; None; Some (RequestError 409 (lit "Conflict"))])
              broken retry.2 (RequestError 409 (lit "Conflict")) retry.1
              eq_refl eq_refl)
    as (_ & _ & Hc & Hp).
  - intros Heq.
    apply (f_equal (λ m : gmap (JSString * JSString * JSString) JSString,
                      m !! (lit "ens-bot", lit "docs",
                            lit "refs/heads/prop/42"))) in Heq.
    vm_compute in Heq. discriminate.
  - apply surjective_pairing.
  - by split.
Defined.

(** ** Decimal numerals *)

Section Numerals.

Lemma lit_inj (s1 s2 : string) : lit s1 = lit s2 → s1 = s2.
Proof.
  unfold lit. intros Heq.
  rewrite <- (string_of_list_ascii_of_string s1),
          <- (string_of_list_ascii_of_string s2).
  f_equal. revert Heq.
  generalize (list_ascii_of_string s1) (list_ascii_of_string s2).
  induction l as [|a l IH]; intros [|b l']; cbn; try done.
  intros [= Hab Hl]. f_equal; [|by apply IH].
  rewrite <- (ascii_N_embedding a), <- (ascii_N_embedding b). by rewrite Hab.
Qed.

Lemma toString_inj (a b : Z) : toString a = toString b → a = b.
Proof. intros Heq. by apply pretty_Z_inj, lit_inj. Qed.

Lemma pretty_N_char_no_stop (d : N) :
  N_of_ascii (pretty_N_char d) ≠ FULL_STOP.
Proof. unfold pretty_N_char. by repeat case_match. Qed.

Lemma pretty_N_go_no_stop (x : N) (s : string) :
  Forall (λ c, c ≠ FULL_STOP) (lit s) →
  Forall (λ c, c ≠ FULL_STOP) (lit (pretty_N_go x s)).
Proof.
  revert s. induction (N.lt_wf_0 x) as [x _ IH]; intros s Hs.
  destruct (decide (x = 0)%N) as [->|Hx]; [by rewrite pretty_N_go_0|].
  rewrite pretty_N_go_step by lia. apply IH.
  - apply N.div_lt; lia.
  - constructor; [apply pretty_N_char_no_stop | done].
Qed.

Lemma pretty_N_no_stop (x : N) :
  Forall (λ c, c ≠ FULL_STOP) (lit (pretty x)).
Proof.
  unfold pretty, pretty_N. case_decide.
  - by repeat constructor.
  - apply pretty_N_go_no_stop. constructor.
Qed.

(** A decimal numeral contains no full stop. *)
Lemma toString_no_stop (n : Z) : Forall (λ c, c ≠ FULL_STOP) (toString n).
Proof.
  unfold toString. destruct n as [|p|p].
  - by repeat constructor.
  - apply (pretty_N_no_stop (N.pos p)).
  - change (pretty (Z.neg p)) with ("-" +:+ pretty (N.pos p))%string.
    constructor; [done | apply (pretty_N_no_stop (N.pos p))].
Qed.

Lemma prefix_up_to_separator (c : N) (a b r : JSString) :
  Forall (λ x, x ≠ c) a → Forall (λ x, x ≠ c) b →
  (a ++ [c]) `prefix_of` (b ++ [c] ++ r) → a = b.
Proof.
  intros Ha. revert b. induction Ha as [|x a Hx Ha IH]; intros b Hb Hp.
  - destruct Hb as [|y b Hy Hb]; [done|].
    cbn in Hp. apply prefix_cons_inv_1 in Hp. by destruct Hy.
  - destruct Hb as [|y b Hy Hb]; cbn in Hp.
    + apply prefix_cons_inv_1 in Hp. by destruct Hx.
    + pose proof (prefix_cons_inv_1 _ _ _ _ Hp) as ->.
      apply prefix_cons_inv_2 in Hp. f_equal. by apply IH.
Qed.

End Numerals.

(** ** Which files count *)

(** Files of another term are never counted: a name that begins with
    the numeral of a term [t'] and a full stop does not start with the
    prefix of a different term [t], so such files, wherever they stand
    in the listing, do not change the number assigned in term [t]. *)
Theorem other_terms_not_counted (t t' : Z) (rest : JSString)
    (before after : list ContentEntry) :
  t' ≠ t →
  let file := {| name := toString t' ++ lit "." ++ rest |} in
  startsWith (name file) (toString t ++ lit ".") = false
  ∧ nextNumber t (before ++ file :: after) = nextNumber t (before ++ after).
Proof.
  intros Hne file.
  assert (startsWith (name file) (toString t ++ lit ".") = false) as Hs.
  { destruct (startsWith _ _) eqn:Hs; [|done].
    apply startsWith_prefix_of in Hs. destruct Hne. symmetry.
    apply toString_inj.
    apply (prefix_up_to_separator FULL_STOP _ _ rest);
      [apply toString_no_stop.. | exact Hs]. }
  split; [done|].
  unfold nextNumber. rewrite !List.filter_app. cbn [List.filter].
  by rewrite Hs.
Qed.

Lemma other_terms_not_counted_witness :
  nextNumber 1 [ {| name := lit "1.1.mdx" |}; {| name := lit "10.1.mdx" |} ]
  = lit "1.2".
Proof.
  exact (proj2 (other_terms_not_counted 1 10 (lit "1.mdx")
                  [ {| name := lit "1.1.mdx" |} ] [] ltac:(lia))).
Defined.

(** ** No collision on a gapless directory *)

Section Gapless.





End Gapless.



(** ** Branch names *)

(** Two proposals get the same branch exactly when their ids print
    alike; in particular different bigint ids, and different string
    ids, never share a branch (a bigint and the string of its digits
    do). *)
Theorem branch_of_injective (p1 p2 : Proposal) :
  (branch_of p1 = branch_of p2
   ↔ id_toString (id p1) = id_toString (id p2))
  ∧ (∀ a b, id p1 = IdBigint a → id p2 = IdBigint b →
            branch_of p1 = branch_of p2 → a = b)
  ∧ (∀ a b, id p1 = IdString a → id p2 = IdString b →
            branch_of p1 = branch_of p2 → a = b)
  ∧ (∀ a, id p1 = IdBigint a → id p2 = IdString (toString a) →
          branch_of p1 = branch_of p2).
Proof.
  assert (branch_of p1 = branch_of p2
          ↔ id_toString (id p1) = id_toString (id p2)) as Hiff.
  { unfold branch_of. split; [apply app_inv_head | by intros ->]. }
  split; [done|]. split; [|split].
  - intros a b Ha Hb Heq. apply Hiff in Heq. rewrite Ha, Hb in Heq.
    by apply toString_inj.
  - intros a b Ha Hb Heq. apply Hiff in Heq. by rewrite Ha, Hb in Heq.
  - intros a Ha Hb. apply Hiff. by rewrite Ha, Hb.
Qed.

Lemma branch_of_injective_witness :
  branch_of {| author := []; id := IdBigint 42; markdown := [];
               title := None; type := executable |}
  = branch_of Scenario.proposal42.
Proof.
  exact (proj2 (proj2 (proj2 (branch_of_injective
    {| author := []; id := IdBigint 42; markdown := [];
       title := None; type := executable |} Scenario.proposal42)))
    42 eq_refl eq_refl).
Defined.

(** ** The title replacement *)

Section Replace.

Lemma prefix_of_app_short {A} (t x y : list A) :
  t `prefix_of` x ++ y → (length t ≤ length x)%nat → t `prefix_of` x.
Proof.
  intros [k Hk] Hlen.
  apply app_eq_inv in Hk as [(k' & -> & _)|(k' & -> & _)].
  - by exists k'.
  - rewrite length_app in Hlen. destruct k'; [|cbn in Hlen; lia].
    by rewrite app_nil_r.
Qed.

Lemma StringIndexOf_here (s t : JSString) (k : nat) :
  t `prefix_of` s → StringIndexOf s t k = Some k.
Proof.
  intros Hp. apply startsWith_prefix_of in Hp.
  destruct s; cbn [StringIndexOf]; by rewrite Hp.
Qed.

(** The index found is where the pattern stands, when it does not occur
    any earlier. *)
Lemma StringIndexOf_first (before t after : JSString) (k : nat) :
  t ≠ [] →
  ¬ occurs_in t (before ++ removelast t) →
  StringIndexOf (before ++ t ++ after) t k = Some (k + length before)%nat.
Proof.
  intros Ht. revert k. induction before as [|c before IH]; intros k Hno.
  - cbn [app]. rewrite StringIndexOf_here by (by apply prefix_app_r).
    f_equal. cbn. lia.
  - cbn [app StringIndexOf].
    assert (startsWith (c :: before ++ t ++ after) t = false) as ->.
    { destruct (startsWith _ _) eqn:Hs; [|done].
      apply startsWith_prefix_of in Hs. destruct Hno.
      assert (t `prefix_of` (c :: before) ++ removelast t) as [rest Hrest];
        [|by exists [], rest].
      apply (prefix_of_app_short t _ ([List.last t 0%N] ++ after)).
      - rewrite <- app_assoc, (app_assoc (removelast t)).
        by rewrite <- app_removelast_last.
      - rewrite length_app.
        rewrite (app_removelast_last 0%N Ht) at 1.
        rewrite length_app. cbn. lia. }
    rewrite IH.
    + f_equal. cbn. lia.
    + intros Ho. apply Hno. cbn [app]. apply occurs_in_cons. by right.
Qed.

Lemma GetSubstitution_literal (matched preceding following template : JSString) :
  dollar_free template = true →
  GetSubstitution matched preceding following template = template.
Proof.
  induction template as [|c template IH]; [done|].
  cbn [dollar_free forallb GetSubstitution]. intros [Hc Ht]%andb_true_iff.
  apply negb_true_iff in Hc as ->. f_equal. by apply IH.
Qed.

Lemma dollar_free_app (a b : JSString) :
  dollar_free (a ++ b) = dollar_free a && dollar_free b.
Proof. unfold dollar_free. apply forallb_app. Qed.

Lemma replace_first (before t after replaceValue : JSString) :
  t ≠ [] →
  ¬ occurs_in t (before ++ removelast t) →
  replace (before ++ t ++ after) t replaceValue
  = before ++ GetSubstitution t before after replaceValue ++ after.
Proof.
  intros Ht Hno. unfold replace.
  rewrite (StringIndexOf_first before t after 0 Ht Hno). cbn [Nat.add].
  rewrite take_app_length, drop_app_add.
  by rewrite drop_app_length.
Qed.

End Replace.

Section Heading.

Lemma GetSubstitution_app_literal
    (matched preceding following a rest : JSString) :
  dollar_free a = true →
  GetSubstitution matched preceding following (a ++ rest)
  = a ++ GetSubstitution matched preceding following rest.
Proof.
  induction a as [|c a IH]; [done|].
  cbn [dollar_free forallb app]. intros [Hc Ha]%andb_true_iff.
  apply negb_true_iff in Hc.
  cbn [GetSubstitution]. rewrite Hc. f_equal. by apply IH.
Qed.

Lemma GetSubstitution_dollar_dollar
    (matched preceding following rest : JSString) :
  GetSubstitution matched preceding following (DOLLAR :: DOLLAR :: rest)
  = DOLLAR :: GetSubstitution matched preceding following rest.
Proof. reflexivity. Qed.

Lemma metadataTable_dollar_free (kind : ProposalType) (i : JSString) :
  dollar_free i = true →
  dollar_free (match kind with
               | executable => metadataTable_executable i
               | social => metadataTable_social i
               end) = true.
Proof.
  intros Hi. destruct kind;
    unfold metadataTable_executable, metadataTable_social;
    rewrite !dollar_free_app, Hi; reflexivity.
Qed.

End Heading.

(** The heading.  When the title is not empty, stands in the body after
    [before] and nowhere earlier, and neither the title, the number nor
    the id contains a dollar sign, the text handed to prettier is the
    front matter followed by the body in which that first occurrence of
    the title, and only it, has become ["[EP ep] title"], a blank line,
    [::authors], a blank line, the table of the proposal's kind and a
    line break; [before] and everything after the occurrence are
    unchanged. *)
Theorem heading_replaces_first_occurrence (ep : JSString)
    (proposal : Proposal) (t before after : JSString) :
  title proposal = Some t → t ≠ [] →
  markdown proposal = before ++ t ++ after →
  ¬ occurs_in t (before ++ removelast t) →
  dollar_free t = true → dollar_free ep = true →
  dollar_free (id_toString (id proposal)) = true →
  wrapMarkdown ep proposal
  = frontmatter (author proposal) (type_toString (type proposal))
      (before
         ++ (lit "[EP " ++ ep ++ lit "] " ++ t ++ NL ++ NL
               ++ lit "::authors" ++ NL ++ NL
               ++ match type proposal with
                  | executable =>
                      metadataTable_executable (id_toString (id proposal))
                  | social => metadataTable_social (id_toString (id proposal))
                  end
               ++ NL)
         ++ after).
Proof.
  intros Ht Hne Hbody Hfirst Hdt Hdep Hdid.
  unfold wrapMarkdown. rewrite Ht. destruct t as [|c t]; [done|].
  rewrite Hbody, replace_first by done.
  rewrite GetSubstitution_literal; [done|].
  rewrite !dollar_free_app, Hdep, Hdt.
  by rewrite metadataTable_dollar_free.
Qed.

Lemma heading_replaces_first_occurrence_witness :
  wrapMarkdown (lit "7.3") Scenario.proposal42 = Scenario.document42.
Proof.
  rewrite (heading_replaces_first_occurrence (lit "7.3") Scenario.proposal42
             (lit "Fund X") (lit "# ") (NL ++ NL ++ lit "Details...")
             eq_refl ltac:(discriminate) eq_refl).
  - reflexivity.
  - apply StringIndexOf_None with (k := 0%nat). reflexivity.
  - reflexivity.
  - reflexivity.
  - reflexivity.
Defined.

(** A doubled dollar sign in the title is a replacement pattern: where
    the title is [a ++ "$$" ++ b], the heading that replaces it reads
    [a ++ "$" ++ b]: one of the two dollar signs is lost. *)
Theorem heading_loses_dollar (ep : JSString) (proposal : Proposal)
    (a b before after : JSString) :
  let t := a ++ lit "$$" ++ b in
  title proposal = Some t →
  markdown proposal = before ++ t ++ after →
  ¬ occurs_in t (before ++ removelast t) →
  dollar_free a = true → dollar_free b = true → dollar_free ep = true →
  dollar_free (id_toString (id proposal)) = true →
  wrapMarkdown ep proposal
  = frontmatter (author proposal) (type_toString (type proposal))
      (before
         ++ (lit "[EP " ++ ep ++ lit "] " ++ (a ++ lit "$" ++ b) ++ NL ++ NL
               ++ lit "::authors" ++ NL ++ NL
               ++ match type proposal with
                  | executable =>
                      metadataTable_executable (id_toString (id proposal))
                  | social => metadataTable_social (id_toString (id proposal))
                  end
               ++ NL)
         ++ after).
Proof.
  intros t Ht Hbody Hfirst Hda Hdb Hdep Hdid.
  assert (t ≠ []) as Hne by (subst t; by destruct a).
  unfold wrapMarkdown. rewrite Ht.
  destruct t as [|c t'] eqn:Heqt; [done|]. rewrite <- Heqt in *.
  rewrite Hbody, replace_first by done.
  do 2 f_equal. f_equal.
  rewrite (app_assoc (lit "[EP ")), (app_assoc _ (lit "] ")).
  rewrite GetSubstitution_app_literal
    by (by rewrite !dollar_free_app, Hdep).
  rewrite <- !app_assoc. do 3 f_equal.
  subst t. rewrite <- !app_assoc.
  rewrite GetSubstitution_app_literal by done. f_equal.
  change (lit "$$" ++ ?r) with (DOLLAR :: DOLLAR :: r).
  rewrite GetSubstitution_dollar_dollar.
  change (lit "$" ++ ?r) with (DOLLAR :: r). f_equal.
  rewrite GetSubstitution_literal; [done|].
  rewrite !dollar_free_app, Hdb.
  by rewrite metadataTable_dollar_free.
Qed.

Lemma heading_loses_dollar_witness :
  wrapMarkdown (lit "7.3")
    {| author := lit "alice.eth"; id := IdString (lit "42");
       markdown := lit "# Grant of $$5"; title := Some (lit "Grant of $$5");
       type := social |}
  = frontmatter (lit "alice.eth") (lit "social")
      (lit "# [EP 7.3] Grant of $5" ++ NL ++ NL ++ lit "::authors" ++ NL ++ NL
         ++ metadataTable_social (lit "42") ++ NL).
Proof.
  rewrite (heading_loses_dollar (lit "7.3")
             {| author := lit "alice.eth"; id := IdString (lit "42");
                markdown := lit "# Grant of $$5";
                title := Some (lit "Grant of $$5"); type := social |}
             (lit "Grant of ") (lit "5") (lit "# ") [] eq_refl eq_refl).
  - reflexivity.
  - apply StringIndexOf_None with (k := 0%nat). reflexivity.
  - reflexivity.
  - reflexivity.
  - reflexivity.
  - reflexivity.
Defined.

(** ** The transport encoding *)

Section Encoding.
Local Open Scope N_scope.
#[local] Ltac Zify.zify_post_hook ::= Z.to_euclidean_division_equations.

Lemma encodeURIComponent_malformed (n : nat) (s : JSString) :
  (length s ≤ n)%nat → well_formed s = false →
  encodeURIComponent s = Throw malformed.
Proof.
  revert s. induction n as [|n IH]; intros s Hlen Hwf.
  { destruct s; [discriminate | simpl in Hlen; lia]. }
  destruct s as [|C rest]; [discriminate|].
  simpl in Hlen. cbn [encodeURIComponent well_formed] in *.
  destruct (is_uriUnreserved C) eqn:HU.
  - apply uriUnreserved_ascii in HU as [HC _].
    assert (is_leading_surrogate C = false) as HL.
    { unfold is_leading_surrogate, in_range.
      apply andb_false_iff. left. apply N.leb_gt. lia. }
    assert (is_trailing_surrogate C = false) as HT.
    { unfold is_trailing_surrogate, in_range.
      apply andb_false_iff. left. apply N.leb_gt. lia. }
    rewrite HL, HT in Hwf. cbn [negb andb] in Hwf.
    by rewrite IH by (lia || done).
  - destruct (is_leading_surrogate C) eqn:HL.
    + destruct rest as [|D rest']; [done|].
      destruct (is_trailing_surrogate D) eqn:HT; [|done].
      cbn [andb] in Hwf. simpl in Hlen. by rewrite IH by (lia || done).
    + destruct (is_trailing_surrogate C) eqn:HT; [done|].
      cbn [negb andb] in Hwf. by rewrite IH by (lia || done).
Qed.

Lemma encodeURIComponent_ascii (s : JSString) :
  is_ascii s = true →
  ∃ e, encodeURIComponent s = Ok e ∧ unescape e = s.
Proof.
  induction s as [|C rest IH]; [by exists []|].
  cbn [is_ascii forallb]. intros [HC Hrest]%andb_true_iff.
  apply N.ltb_lt in HC. destruct (IH Hrest) as (e & He & Hu).
  cbn [encodeURIComponent]. rewrite He. cbn [mbind Result_bind].
  destruct (is_uriUnreserved C) eqn:HU.
  - eexists. split; [done|].
    apply uriUnreserved_ascii in HU as [_ Hp].
    by rewrite unescape_plain, Hu.
  - assert (is_leading_surrogate C = false) as ->.
    { unfold is_leading_surrogate, in_range.
      apply andb_false_iff. left. apply N.leb_gt. lia. }
    assert (is_trailing_surrogate C = false) as ->.
    { unfold is_trailing_surrogate, in_range.
      apply andb_false_iff. left. apply N.leb_gt. lia. }
    eexists. split; [done|].
    assert (UTF8_octets C = [C]) as ->.
    { unfold UTF8_octets. by rewrite (proj2 (N.ltb_lt C 128)). }
    rewrite unescape_octets by (repeat constructor; lia).
    by rewrite Hu.
Qed.

Lemma b64_char_unit_nat (n : nat) :
  (n < 64)%nat → is_base64_unit (b64_char (N.of_nat n)) = true.
Proof.
  intros Hn. do 64 (destruct n as [|n]; [reflexivity|]). lia.
Qed.

Lemma b64_char_unit (i : N) : i < 64 → is_base64_unit (b64_char i) = true.
Proof. intros Hi. rewrite <- (N2Nat.id i). apply b64_char_unit_nat. lia. Qed.

Lemma base64_encode_shape (n : nat) (octets : list N) :
  (length octets ≤ n)%nat →
  Forall (λ o, o < 256) octets →
  forallb is_base64_unit (base64_encode octets) = true
  ∧ length (base64_encode octets) = (4 * ((length octets + 2) / 3))%nat.
Proof.
  revert octets. induction n as [|n IH]; intros octets Hlen Hall.
  { destruct octets; [done | simpl in Hlen; lia]. }
  destruct octets as [|a [|b [|c rest]]]; [done|..].
  - apply Forall_cons in Hall as [Ha _].
    cbn [base64_encode forallb]. rewrite !b64_char_unit by lia. done.
  - apply Forall_cons in Hall as [Ha Hall].
    apply Forall_cons in Hall as [Hb _].
    cbn [base64_encode forallb]. rewrite !b64_char_unit by lia. done.
  - apply Forall_cons in Hall as [Ha Hall].
    apply Forall_cons in Hall as [Hb Hall].
    apply Forall_cons in Hall as [Hc Hall].
    destruct (IH rest) as [Hunits Hlength]; [simpl in Hlen; lia|done|].
    cbn [base64_encode]. rewrite forallb_app, length_app, Hunits, Hlength.
    cbn [forallb length]. rewrite !b64_char_unit by lia.
    split; [done|].
    replace (S (S (S (length rest))) + 2)%nat
      with (1 * 3 + (length rest + 2))%nat by lia.
    rewrite Nat.div_add_l by lia. lia.
Qed.

End Encoding.

(** What the encoding can do with a string of code units: it returns a
    content exactly when every surrogate is paired, and otherwise throws
    the URIError of [encodeURIComponent]; [btoa] never throws, because
    [unescape] hands it octets only. *)
Theorem encodeContent_outcome (text : JSString) :
  is_jsstring text = true →
  (well_formed text = true ↔ ∃ content, encodeContent text = Ok content)
  ∧ (well_formed text = false →
     encodeContent text = Throw (URIError (lit "URI malformed")))
  ∧ encodeContent text ≠ Throw InvalidCharacterError.
Proof.
  intros Hjs.
  assert (well_formed text = false →
          encodeContent text = Throw (URIError (lit "URI malformed"))) as Hbad.
  { intros Hwf. unfold encodeContent.
    by rewrite (encodeURIComponent_malformed (length text) text). }
  split; [|split; [done|]].
  - split; [by apply encodeContent_total|].
    intros [content Hc]. destruct (well_formed text) eqn:Hwf; [done|].
    rewrite Hbad in Hc; done.
  - destruct (well_formed text) eqn:Hwf.
    + destruct (encodeContent_total text Hjs Hwf) as [content ->]. done.
    + by rewrite Hbad.
Qed.

Lemma encodeContent_outcome_witness :
  encodeContent [104; 55357]%N = Throw (URIError (lit "URI malformed")).
Proof.
  exact (proj1 (proj2 (encodeContent_outcome [104; 55357]%N eq_refl)) eq_refl).
Defined.

(** For a text of ASCII characters the content is the base64 text of
    the characters themselves. *)
Theorem encodeContent_ascii (text : JSString) :
  is_ascii text = true →
  encodeContent text = Ok (base64_encode text).
Proof.
  intros Ha. destruct (encodeURIComponent_ascii text Ha) as (e & He & Hu).
  unfold encodeContent. rewrite He. cbn [mbind Result_bind]. rewrite Hu.
  apply btoa_octets. apply Forall_forall. intros c Hc.
  unfold is_ascii in Ha. rewrite forallb_forall in Ha.
  apply list_elem_of_In, Ha, N.ltb_lt in Hc. lia.
Qed.

Lemma encodeContent_ascii_witness :
  encodeContent (lit "# Fund X (50%)") = Ok (lit "IyBGdW5kIFggKDUwJSk=").
Proof. exact (encodeContent_ascii (lit "# Fund X (50%)") eq_refl). Defined.

(** The content is base64 text: letters, digits, [+], [/] and the
    padding sign only, in groups of four. *)
Theorem encodeContent_base64 (text content : JSString) :
  encodeContent text = Ok content →
  forallb is_base64_unit content = true
  ∧ (length content mod 4 = 0)%nat.
Proof.
  intros Henc. unfold encodeContent in Henc.
  apply Result_bind_Ok in Henc as (e & _ & Hb).
  apply btoa_Ok in Hb as [Hoctets ->].
  destruct (base64_encode_shape _ (unescape e) (le_n _) Hoctets) as [Hu Hl].
  split; [done|]. rewrite Hl, Nat.mul_comm. apply Nat.Div0.mod_mul.
Qed.

Lemma encodeContent_base64_witness :
  forallb is_base64_unit (lit "aMOpbGxvIPCfmIA=") = true
  ∧ (length (lit "aMOpbGxvIPCfmIA=") mod 4 = 0)%nat.
Proof.
  exact (encodeContent_base64
           [104; 233; 108; 108; 111; 32; 55357; 56832]%N _ eq_refl).
Defined.

(** ** The console *)

Section Console.
Import Model.
Variable format : JSString → Result JSString.
#[local] Hint Extern 0 (Runtime World) =>
  exact (runtime format) : typeclass_instances.
Variable this : GitHub.









End Console.


